(** * ScopeFoundry: settings path registry, INI persistence and view selection

    A shallow embedding of [BaseApp] (src/base_app/base_app.py) and
    [DataBrowser] (src/data_browser/data_browser.py).

    Python objects that are shared and mutated (LoggedQuantity, views) live
    in object stores indexed by an identity; dictionaries are insertion
    ordered association lists with Python's update-in-place semantics;
    methods are computations in a state-and-exception monad. *)

From Stdlib Require Import ZArith String Ascii List.
From stdpp Require Import base decidable option list functions pretty.

Local Open Scope string_scope.
Local Open Scope list_scope.

(** ** Python dictionaries keyed by [str]

    A [dict] keeps its keys in insertion order; assigning to an existing key
    replaces the value where the key stands, assigning to a new key appends. *)

Definition dict (V : Type) : Type := list (string * V).

Fixpoint dict_get {V} (k : string) (d : dict V) : option V :=
  match d with
  | [] => None
  | (k', v) :: d' => if String.eqb k k' then Some v else dict_get k d'
  end.

Fixpoint dict_set {V} (k : string) (v : V) (d : dict V) : dict V :=
  match d with
  | [] => [(k, v)]
  | (k', v') :: d' =>
      if String.eqb k k' then (k, v) :: d' else (k', v') :: dict_set k v d'
  end.

(** [d.pop(k, None)] *)
Fixpoint dict_pop {V} (k : string) (d : dict V) : dict V :=
  match d with
  | [] => []
  | (k', v') :: d' =>
      if String.eqb k k' then d' else (k', v') :: dict_pop k d'
  end.

Definition dict_keys {V} (d : dict V) : list string := map fst d.
Definition dict_values {V} (d : dict V) : list V := map snd d.

(** [k in d] *)
Definition dict_contains {V} (k : string) (d : dict V) : bool :=
  match dict_get k d with Some _ => true | None => false end.

(** ** Python strings *)

(** [s.split("/")]: never empty, [""] for the empty string. *)
Fixpoint split (s : string) : list string :=
  match s with
  | EmptyString => [EmptyString]
  | String c r =>
      if Ascii.eqb c "/" then EmptyString :: split r
      else match split r with
           | h :: t => String c h :: t
           | [] => [String c EmptyString]
           end
  end.

(** ["/".join(parts)] *)
Fixpoint join (parts : list string) : string :=
  match parts with
  | [] => EmptyString
  | [p] => p
  | p :: ps => (p ++ "/" ++ join ps)%string
  end.

(** [Path(fname).name] on a POSIX path: empty and ["."] components are
    dropped by pathlib, the name is the final remaining component. *)
Definition Path_name (fname : string) : string :=
  List.last
    (filter (fun p => negb (String.eqb p "") && negb (String.eqb p ".")) (split fname))
    EmptyString.

(** ** Values, result codes, exceptions *)

(** The primitive values a setting holds.  Floating point values are left
    out of the embedding. *)
Inductive value : Type :=
  | VBool (b : bool)
  | VInt (n : Z)
  | VStr (s : string).

(** [class WRITE_RES(enum.Enum)] *)
Inductive WRITE_RES : Type := SUCCESS | MISSING | PROTECTED.

Inductive exn : Type :=
  | IndexError
  | KeyError (k : string)
  | AttributeError
  | FileNotFoundError (fname : string)
  | OSError (fname : string).

(** ** State and exception monad *)

Inductive outcome (S A : Type) : Type :=
  | Return (a : A) (s : S)
  | Raise (e : exn) (s : S).
Arguments Return {S A} a s.
Arguments Raise {S A} e s.

Definition M (S A : Type) : Type := S -> outcome S A.

Definition ret {S A} (a : A) : M S A := fun s => Return a s.

Definition bind {S A B} (m : M S A) (k : A -> M S B) : M S B :=
  fun s => match m s with
           | Return a s' => k a s'
           | Raise e s' => Raise e s'
           end.

Definition raise {S A} (e : exn) : M S A := fun s => Raise e s.
Definition gets {S A} (f : S -> A) : M S A := fun s => Return (f s) s.
Definition modify {S} (f : S -> S) : M S unit := fun s => Return tt (f s).

Declare Scope py_scope.
Delimit Scope py_scope with py.
Notation "x <- c1 ;; c2" := (bind c1 (fun x => c2))
  (at level 100, c1 at next level, right associativity) : py_scope.
Notation "c1 ;; c2" := (bind c1 (fun _ => c2))
  (at level 100, right associativity) : py_scope.
Local Open Scope py_scope.

(** [for x in xs: body(x)] *)
Fixpoint for_each {S A} (xs : list A) (body : A -> M S unit) : M S unit :=
  match xs with
  | [] => ret tt
  | x :: xs' => body x ;; for_each xs' body
  end.

(** [{p: f(p) for p in ps}] *)
Fixpoint dict_comprehension {S V} (ps : list string) (f : string -> M S V)
    (acc : dict V) : M S (dict V) :=
  match ps with
  | [] => ret acc
  | p :: ps' => v <- f p ;; dict_comprehension ps' f (dict_set p v acc)
  end.

(** Running a computation that is expected to return. *)
Definition state_of {S A} (o : outcome S A) : S :=
  match o with Return _ s => s | Raise _ s => s end.

Definition result_of {S A} (o : outcome S A) : option A :=
  match o with Return a _ => Some a | Raise _ _ => None end.

(** ** LoggedQuantity

    [ScopeFoundry.logged_quantity] is imported by both source files and is
    not part of them. *)

(** The identity of a LoggedQuantity object. *)
Definition loc : Type := nat.

(** Modelled from the spec: [LoggedQuantity] is missing from src/; it is "an
    observable, typed, named value cell with optional write protection and
    proposal history".  The fields are the attributes the two files read
    ([path], [val], [protected]) and what their method calls change. *)
Record LoggedQuantity : Type := mkLQ {
  path : string;
  val : value;
  protected : bool;
  proposed_values : dict value;
  choices : list string
}.

(** Modelled from the spec: [LoggedQuantity.update_value] is missing from
    src/; a write "sets the value" of the Setting. *)
Definition update_value (lq : LoggedQuantity) (new_val : value) : LoggedQuantity :=
  mkLQ (path lq) new_val (protected lq) (proposed_values lq) (choices lq).

(** Modelled from the spec: [LoggedQuantity.propose_value] is missing from
    src/; it "attaches (label, value) to that Setting's proposal history
    without changing its current value", the history being "a mapping from
    provenance-label to previously proposed value". *)
Definition propose_value (lq : LoggedQuantity) (name : string) (v : value) : LoggedQuantity :=
  mkLQ (path lq) (val lq) (protected lq) (dict_set name v (proposed_values lq)) (choices lq).

(** Modelled from the spec: [LoggedQuantity.ini_string_value] is missing from
    src/; it is the "canonical string form" of the current value. *)
Definition ini_string (v : value) : string :=
  match v with
  | VBool true => "True"
  | VBool false => "False"
  | VInt n => pretty n
  | VStr s => s
  end.

Definition ini_string_value (lq : LoggedQuantity) : string := ini_string (val lq).

(** Modelled from the spec: [LoggedQuantity.change_choice_list] is missing
    from src/; it replaces the list given as [choices=] to [New]. *)
Definition change_choice_list (lq : LoggedQuantity) (cs : list string) : LoggedQuantity :=
  mkLQ (path lq) (val lq) (protected lq) (proposed_values lq) cs.

(** Modelled from the spec: [LQCollection] is missing from src/; it is "an
    ordered mapping from setting name to Setting, exposing dictionary-like
    access": [name in settings] is [dict_contains], [settings.get_lq(name)]
    the item at [name], [settings.as_dict().values()] is [dict_values]. *)
Definition LQCollection : Type := dict loc.

(** ** ini_io

    [ScopeFoundry.ini_io] is imported by src/base_app/base_app.py and is not
    part of the sources at hand. *)
Module ini_io.

(** Modelled from the spec: the layout of an INI file, missing from src/, is
    "path-keyed key/value pairs grouped by section (app, view/<name>,
    plugin/<name>), values serialized as their canonical string form". *)
Definition ini_file : Type := dict (dict string).

(** Modelled from the spec: the section of a path, missing from src/, is
    what stands before its last "/" ("app", "view/<name>", "plugin/<name>"). *)
Definition section_of (p : string) : string := join (removelast (split p)).

(** Modelled from the spec: the key of a path inside its section, missing
    from src/, is its last segment. *)
Definition option_of (p : string) : string := List.last (split p) EmptyString.

(** Modelled from the spec: writing one pair, missing from src/, puts the
    string form of the value under its key in the section of its path. *)
Definition put (p : string) (v : value) (f : ini_file) : ini_file :=
  let sec := section_of p in
  let body := match dict_get sec f with Some b => b | None => [] end in
  dict_set sec (dict_set (option_of p) (ini_string v) body) f.

(** Modelled from the spec: the file [save_settings] writes, missing from
    src/, has "one section per top-level path prefix". *)
Definition to_file (settings : dict value) : ini_file :=
  fold_left (fun f '(p, v) => put p v f) settings [].

(** Modelled from the spec: the pairs of a file, missing from src/, are its
    "path->string-value pairs", section by section. *)
Definition items (f : ini_file) : list (string * value) :=
  flat_map (fun '(sec, body) =>
              map (fun '(k, s) => ((sec ++ "/" ++ k)%string, VStr s)) body) f.

(** Modelled from the spec: the mapping [load_settings] returns, missing
    from src/, is built from the pairs of the file in their order. *)
Definition of_file (f : ini_file) : dict value :=
  fold_left (fun d '(p, v) => dict_set p v d) (items f) [].

Section files.
Context {S : Type} (fs : S -> dict ini_file) (set_fs : dict ini_file -> S -> S).
Context (writable : S -> string -> bool).

(** Modelled from the spec: [ini_io.save_settings] is missing from src/; it
    "serializes a path->value mapping to an INI-format file", and "failure
    to open the destination for writing is a reported error, not silently
    swallowed".  Whether the destination can be opened is the answer of the
    file system, [writable]. *)
Definition save_settings (fname : string) (settings : dict value) : M S unit :=
  fun s =>
    if writable s fname
    then Return tt (set_fs (dict_set fname (to_file settings) (fs s)) s)
    else Raise (OSError fname) s.

(** Modelled from the spec: [ini_io.load_settings] is missing from src/; it
    "parses the file into path->string-value pairs", and a "missing file is
    a reported error". *)
Definition load_settings (fname : string) : M S (dict value) :=
  fun s => match dict_get fname (fs s) with
           | Some f => Return (of_file f) s
           | None => Raise (FileNotFoundError fname) s
           end.
End files.

End ini_io.

(** ** BaseApp (src/base_app/base_app.py) *)
Module BaseApp.

(** The attributes of [self] that the settings methods use, together with
    the LoggedQuantity objects and the files they reach; [writable] tells
    which destinations the file system lets a save open for writing. *)
Record app : Type := mkApp {
  lqs : loc -> LoggedQuantity;
  fs : dict ini_io.ini_file;
  writable : string -> bool;
  _setting_paths : dict loc;
  settings : LQCollection
}.

Definition set_lqs (f : loc -> LoggedQuantity) (a : app) : app :=
  mkApp f (fs a) (writable a) (_setting_paths a) (settings a).
Definition set_fs (f : dict ini_io.ini_file) (a : app) : app :=
  mkApp (lqs a) f (writable a) (_setting_paths a) (settings a).
Definition set_setting_paths (r : dict loc) (a : app) : app :=
  mkApp (lqs a) (fs a) (writable a) r (settings a).

(** A method call on the object a reference denotes. *)
Definition on_lq (l : loc) (f : LoggedQuantity -> LoggedQuantity) : M app unit :=
  modify (fun a => set_lqs (<[l := f (lqs a l)]> (lqs a)) a).

Definition add_setting_path (lq : loc) : M app unit :=
  modify (fun a => set_setting_paths (dict_set (path (lqs a lq)) lq (_setting_paths a)) a).

Definition remove_setting_path (lq : loc) : M app unit :=
  modify (fun a => set_setting_paths (dict_pop (path (lqs a lq)) (_setting_paths a)) a).

(** The two [connect] calls subscribe [add_setting_path] and
    [remove_setting_path] to the collection's signals; the loop registers
    what the collection holds now. *)
Definition add_lq_collection_to_settings_path (settings : LQCollection) : M app unit :=
  for_each (dict_values settings) add_setting_path.

Definition get_lq (p : string) : M app (option loc) :=
  gets (fun a => dict_get p (_setting_paths a)).

Definition write_setting (p : string) (v : value) : M app WRITE_RES :=
  lq <- get_lq p ;;
  match lq with
  | None => ret MISSING
  | Some l => on_lq l (fun q => update_value q v) ;; ret SUCCESS
  end.

Definition write_setting_safe (p : string) (v : value) : M app WRITE_RES :=
  lq <- get_lq p ;;
  match lq with
  | None => ret MISSING
  | Some l =>
      prot <- gets (fun a => protected (lqs a l)) ;;
      if prot then ret PROTECTED
      else on_lq l (fun q => update_value q v) ;; ret SUCCESS
  end.

Fixpoint write_settings_safe_loop (items : list (string * value))
    (report : dict WRITE_RES) : M app (dict WRITE_RES) :=
  match items with
  | [] => ret report
  | (p, v) :: rest =>
      success <- write_setting_safe p v ;;
      write_settings_safe_loop rest (dict_set p success report)
  end.

Definition write_settings_safe (settings : dict value) : M app (dict WRITE_RES) :=
  write_settings_safe_loop settings [].

Definition propose_settings_values (name : string) (settings : dict value) : M app unit :=
  for_each settings (fun '(p, v) =>
    lq <- get_lq p ;;
    match lq with
    | None => ret tt
    | Some l => on_lq l (fun q => propose_value q name v)
    end).

(** [lq.ini_string_value()] and [lq.val] on [None] raise AttributeError. *)
Definition read_setting (p : string) (ini_string_value_flag : bool) : M app value :=
  lq <- get_lq p ;;
  match lq with
  | None => raise AttributeError
  | Some l =>
      if ini_string_value_flag
      then gets (fun a => VStr (ini_string_value (lqs a l)))
      else gets (fun a => val (lqs a l))
  end.

Definition read_settings (paths : option (list string)) (ini_string_value_flag : bool)
    : M app (dict value) :=
  ps <- match paths with
        | None => gets (fun a => dict_keys (_setting_paths a))
        | Some ps => ret ps
        end ;;
  dict_comprehension ps (fun p => read_setting p ini_string_value_flag) [].

Definition settings_save_ini (fname : string) : M app unit :=
  settings <- read_settings None true ;;
  ini_io.save_settings fs set_fs writable fname settings ;;
  propose_settings_values (Path_name fname) settings.

Definition settings_load_ini (fname : string) : M app (dict value) :=
  settings <- ini_io.load_settings fs fname ;;
  write_settings_safe settings ;;
  propose_settings_values (Path_name fname) settings ;;
  ret settings.

End BaseApp.

(** ** DataBrowser (src/data_browser/data_browser.py) *)
Module DataBrowser.

Definition vloc : Type := nat.

(** Modelled from the spec: [DataBrowserView] is missing from src/; a view
    is "a named, lazily-initialized UI unit with its own Settings
    Collection" and a support predicate.  The fields are the attributes and
    methods [DataBrowser] uses; [setup_calls] counts the calls of
    [view.setup()]. *)
Record DataBrowserView : Type := mkView {
  name : string;
  view_settings : LQCollection;
  view_loaded : bool;
  is_file_supported : string -> bool;
  setup_calls : nat
}.

(** Modelled from the spec: the plugin class is missing from src/; a plugin
    is "a named unit with its own Settings Collection". *)
Record Plugin : Type := mkPlugin {
  plugin_name : string;
  plugin_settings : LQCollection
}.

(** [view_stack] is the QStackedWidget: the widgets added so far, each the
    [ui] of a view, and the index on display. *)
Record browser : Type := mkBrowser {
  base : BaseApp.app;
  view_objs : vloc -> DataBrowserView;
  views : dict vloc;
  plugins : dict Plugin;
  current_view : vloc;
  view_stack : list vloc;
  view_stack_current : nat;
  view_stack_indices : dict nat
}.

Definition set_base (a : BaseApp.app) (b : browser) : browser :=
  mkBrowser a (view_objs b) (views b) (plugins b) (current_view b)
            (view_stack b) (view_stack_current b) (view_stack_indices b).
Definition set_view_objs (f : vloc -> DataBrowserView) (b : browser) : browser :=
  mkBrowser (base b) f (views b) (plugins b) (current_view b)
            (view_stack b) (view_stack_current b) (view_stack_indices b).
Definition set_views (vs : dict vloc) (b : browser) : browser :=
  mkBrowser (base b) (view_objs b) vs (plugins b) (current_view b)
            (view_stack b) (view_stack_current b) (view_stack_indices b).
Definition set_current_view (v : vloc) (b : browser) : browser :=
  mkBrowser (base b) (view_objs b) (views b) (plugins b) v
            (view_stack b) (view_stack_current b) (view_stack_indices b).
Definition set_view_stack (ws : list vloc) (b : browser) : browser :=
  mkBrowser (base b) (view_objs b) (views b) (plugins b) (current_view b)
            ws (view_stack_current b) (view_stack_indices b).
Definition set_view_stack_current (i : nat) (b : browser) : browser :=
  mkBrowser (base b) (view_objs b) (views b) (plugins b) (current_view b)
            (view_stack b) i (view_stack_indices b).
Definition set_view_stack_indices (d : dict nat) (b : browser) : browser :=
  mkBrowser (base b) (view_objs b) (views b) (plugins b) (current_view b)
            (view_stack b) (view_stack_current b) d.

(** A method inherited from [BaseApp], run on the browser. *)
Definition inherited {A} (m : M BaseApp.app A) : M browser A :=
  fun b => match m (base b) with
           | Return a s => Return a (set_base s b)
           | Raise e s => Raise e (set_base s b)
           end.

Definition on_view (v : vloc) (f : DataBrowserView -> DataBrowserView) : M browser unit :=
  modify (fun b => set_view_objs (<[v := f (view_objs b v)]> (view_objs b)) b).

(** Modelled from the spec: [LQCollection.get_lq] is missing from src/; it
    is the "get-by-name" of a dictionary-like collection, a KeyError when
    the name is not a member (the source guards its own call in [get_lq]
    with [in]). *)
Definition collection_get_lq (c : LQCollection) (n : string) : M browser loc :=
  match dict_get n c with
  | Some l => ret l
  | None => raise (KeyError n)
  end.

(** [add_view]: the view enters [self.views] under its name, its settings
    enter the path registry, and the choices of the [view_name] setting
    become the names of the registered views. *)
Definition add_view (new_view : vloc) : M browser vloc :=
  view <- gets (fun b => view_objs b new_view) ;;
  modify (fun b => set_views (dict_set (name view) new_view (views b)) b) ;;
  inherited (BaseApp.add_lq_collection_to_settings_path (view_settings view)) ;;
  app_settings <- gets (fun b => BaseApp.settings (base b)) ;;
  view_name <- collection_get_lq app_settings "view_name" ;;
  keys <- gets (fun b => dict_keys (views b)) ;;
  inherited (BaseApp.on_lq view_name (fun q => change_choice_list q keys)) ;;
  ret new_view.

Definition add_plugin (plugin : Plugin) : M browser unit :=
  modify (fun b =>
    mkBrowser (base b) (view_objs b) (views b)
              (dict_set (plugin_name plugin) plugin (plugins b))
              (current_view b) (view_stack b) (view_stack_current b)
              (view_stack_indices b)) ;;
  inherited (BaseApp.add_lq_collection_to_settings_path (plugin_settings plugin)).

(** "deprecated use DataBrowser.add_view(new_view) instead" *)
Definition load_view (new_view : vloc) : M browser unit :=
  add_view new_view ;; ret tt.

(** [setup_view]: on an unloaded view, [view.setup()] runs, the widget of
    the view that is current at that moment is added to the stack, the new
    index is filed under the name of [view], and [view] is marked loaded;
    in every case [view] becomes current and its index goes on display. *)
Definition setup_view (view : vloc) : M browser unit :=
  loaded <- gets (fun b => view_loaded (view_objs b view)) ;;
  (if negb loaded then
     on_view view (fun v =>
       mkView (name v) (view_settings v) (view_loaded v) (is_file_supported v)
              (S (setup_calls v))) ;;
     index <- gets (fun b => length (view_stack b)) ;;
     modify (fun b => set_view_stack (view_stack b ++ [current_view b]) b) ;;
     modify (fun b =>
       set_view_stack_indices
         (dict_set (name (view_objs b view)) index (view_stack_indices b)) b) ;;
     on_view view (fun v =>
       mkView (name v) (view_settings v) true (is_file_supported v) (setup_calls v))
   else ret tt) ;;
  modify (set_current_view view) ;;
  idx <- gets (fun b => dict_get (name (view_objs b view)) (view_stack_indices b)) ;;
  match idx with
  | Some i => modify (set_view_stack_current i)
  | None => n <- gets (fun b => name (view_objs b view)) ;; raise (KeyError n)
  end.

Fixpoint auto_select_loop (objs : vloc -> DataBrowserView) (fname : string)
    (items : list (string * vloc)) : string :=
  match items with
  | [] => "file_info"
  | (view_name, view) :: rest =>
      if is_file_supported (objs view) fname then view_name
      else auto_select_loop objs fname rest
  end.

(** "return the name of the last supported view for the given fname" *)
Definition auto_select_view (fname : string) : M browser string :=
  gets (fun b => auto_select_loop (view_objs b) fname (rev (views b))).

(** "returns the LoggedQuantity defined by a path string of the form
    'section/[component/]setting' ... returns None if it does not exist" *)
Definition get_lq (p : string) : M browser (option loc) :=
  let parts := split p in
  app_settings <- gets (fun b => BaseApp.settings (base b)) ;;
  settings <-
    (if String.eqb (hd EmptyString parts) "view" then
       match parts !! 1%nat with
       | None => raise IndexError
       | Some owner =>
           view <- gets (fun b => dict_get owner (views b)) ;;
           match view with
           | Some v =>
               load_view v ;;
               gets (fun b => view_settings (view_objs b v))
           | None => ret app_settings
           end
       end
     else if String.eqb (hd EmptyString parts) "plugin" then
       match parts !! 1%nat with
       | None => raise IndexError
       | Some owner =>
           plugin <- gets (fun b => dict_get owner (plugins b)) ;;
           match plugin with
           | Some pl => ret (plugin_settings pl)
           | None => ret app_settings
           end
       end
     else ret app_settings) ;;
  let last_part := List.last parts EmptyString in
  if dict_contains last_part settings
  then ret (dict_get last_part settings)
  else ret None.

Definition read_setting (p : string) (ini_string_value_flag : bool) : M browser value :=
  lq <- get_lq p ;;
  match lq with
  | None => raise AttributeError
  | Some l =>
      if ini_string_value_flag
      then gets (fun b => VStr (ini_string_value (BaseApp.lqs (base b) l)))
      else gets (fun b => val (BaseApp.lqs (base b) l))
  end.

(** *** The resolution policy in the words of the specification

    "split the path on /; if the first segment names a known section
    (view, plugin) and the second segment names a known sub-container,
    resolve the remaining suffix against that sub-container's collection
    and trigger lazy-loading of that sub-container if it is a view;
    otherwise resolve the whole path against the root collection
    directly." *)
Definition lazy_load_spec (view : vloc) : M browser unit :=
  on_view view (fun v =>
    if view_loaded v then v
    else mkView (name v) (view_settings v) true (is_file_supported v)
                (S (setup_calls v))).

Definition get_lq_spec (p : string) : M browser (option loc) :=
  root <- gets (fun b => dict_get p (BaseApp.settings (base b))) ;;
  match split p with
  | sec :: owner :: suffix =>
      if String.eqb sec "view" then
        view <- gets (fun b => dict_get owner (views b)) ;;
        match view with
        | Some v =>
            lazy_load_spec v ;;
            gets (fun b => dict_get (join suffix) (view_settings (view_objs b v)))
        | None => ret root
        end
      else if String.eqb sec "plugin" then
        plugin <- gets (fun b => dict_get owner (plugins b)) ;;
        match plugin with
        | Some pl => ret (dict_get (join suffix) (plugin_settings pl))
        | None => ret root
        end
      else ret root
  | _ => ret root
  end.

End DataBrowser.

(** ** Operations of BaseApp (src/base_app/base_app.py) *)
Module Operations.

(** The two signals of [BaseAppQbject]. *)
Inductive signal : Type :=
  | operation_added (name : string)
  | operation_removed (name : string).

(** [self.operations], an OrderedDict from names to callables (a callable
    is known by its identity), and the signals emitted so far, oldest
    first. *)
Record ops : Type := mkOps {
  operations : dict nat;
  emitted : list signal
}.

Definition emit (s : signal) : M ops unit :=
  modify (fun r => mkOps (operations r) (emitted r ++ [s])).

Definition add_operation (name : string) (op_func : nat) : M ops unit :=
  modify (fun r => mkOps (dict_set name op_func (operations r)) (emitted r)) ;;
  emit (operation_added name).

Definition remove_operation (name : string) : M ops unit :=
  present <- gets (fun r => dict_contains name (operations r)) ;;
  if negb present then ret tt
  else
    modify (fun r => mkOps (dict_pop name (operations r)) (emitted r)) ;;
    emit (operation_removed name).

(** A call of one of the two methods, and a sequence of calls. *)
Inductive call : Type :=
  | Add (name : string) (op_func : nat)
  | Remove (name : string).

Definition do_call (c : call) : M ops unit :=
  match c with
  | Add name op_func => add_operation name op_func
  | Remove name => remove_operation name
  end.

(** Whether the signals say that [name] is registered: its last signal is
    [operation_added]. *)
Definition registered_by (trace : list signal) (name : string) : bool :=
  fold_left
    (fun acc s =>
       match s with
       | operation_added n => if String.eqb n name then true else acc
       | operation_removed n => if String.eqb n name then false else acc
       end) trace false.

(** The operations and the signals agree. *)
Definition coherent (r : ops) : Prop :=
  NoDup (dict_keys (operations r))
  /\ forall name, dict_contains name (operations r) = registered_by (emitted r) name.

End Operations.

(** ** One entry of a bulk operation

    [write_settings_safe] and [propose_settings_values] walk a mapping and,
    for every path that resolves to a LoggedQuantity passing a guard, call
    one method on it.  [entry_effect] is the state after one such entry and
    [result_code] the code one safe write reports. *)
Definition entry_effect (guard : LoggedQuantity -> bool)
    (method : value -> LoggedQuantity -> LoggedQuantity)
    (a : BaseApp.app) (entry : string * value) : BaseApp.app :=
  match dict_get (fst entry) (BaseApp._setting_paths a) with
  | Some l =>
      if guard (BaseApp.lqs a l)
      then BaseApp.set_lqs (<[l := method (snd entry) (BaseApp.lqs a l)]> (BaseApp.lqs a)) a
      else a
  | None => a
  end.

Definition result_code (a : BaseApp.app) (p : string) : WRITE_RES :=
  match dict_get p (BaseApp._setting_paths a) with
  | None => MISSING
  | Some l => if protected (BaseApp.lqs a l) then PROTECTED else SUCCESS
  end.

Definition unprotected (q : LoggedQuantity) : bool := negb (protected q).
Definition write_method (v : value) (q : LoggedQuantity) : LoggedQuantity := update_value q v.
Definition propose_method (name : string) (v : value) (q : LoggedQuantity) : LoggedQuantity :=
  propose_value q name v.

(** Whether an entry of a bulk operation reaches the object [l] (its path
    resolves to [l] and [l] passes the guard), and the value of the last
    entry of a mapping that does. *)
Definition reaches (guard : LoggedQuantity -> bool) (a : BaseApp.app) (l : loc)
    (entry : string * value) : bool :=
  bool_decide (dict_get (fst entry) (BaseApp._setting_paths a) = Some l)
  && guard (BaseApp.lqs a l).

Definition last_reach (hit : string * value -> bool) (items : dict value) : option value :=
  fold_left (fun acc e => if hit e then Some (snd e) else acc) items None.

(** ** Shapes of paths

    A segment of a path holds no "/". *)
Fixpoint no_slash (s : string) : bool :=
  match s with
  | EmptyString => true
  | String c r => negb (Ascii.eqb c "/") && no_slash r
  end.

(** ** The view stack invariant

    Every view marked as loaded has an index in [view_stack_indices]; it is
    what [setup_view] relies on when it skips the setup. *)
Definition loaded_indexed (b : DataBrowser.browser) : Prop :=
  forall v, DataBrowser.view_loaded (DataBrowser.view_objs b v) = true ->
            dict_contains (DataBrowser.name (DataBrowser.view_objs b v))
                          (DataBrowser.view_stack_indices b) = true.

(** ** Sample states

    A small application: a protected setting [app/x] valued 10, a writable
    setting [app/y], and a second Setting object that also calls itself
    [app/x] and is not registered yet. *)
Module Sample.

Definition blank : LoggedQuantity := mkLQ "" (VStr "") false [] [].

Definition objects (l : loc) : LoggedQuantity :=
  match l with
  | 0 => mkLQ "app/x" (VInt 10) true [] []
  | 1 => mkLQ "app/y" (VInt 1) false [] []
  | 2 => mkLQ "app/x" (VInt 7) false [] []
  | _ => blank
  end.

(** The destinations a save can open: everything outside the directory
    [nodir], which does not exist. *)
Definition can_open (fname : string) : bool := negb (String.prefix "nodir/" fname).

Definition app0 : BaseApp.app :=
  BaseApp.mkApp objects [] can_open [("app/x", 0); ("app/y", 1)] [("x", 0); ("y", 1)].

(** The same application next to a settings file that names the protected
    [app/x] and a path [app/gone] that is not registered. *)
Definition fileA : ini_io.ini_file := [("app", [("x", "5"); ("gone", "7")])].

Definition app1 : BaseApp.app :=
  BaseApp.mkApp objects [("conf/fileA.ini", fileA)] can_open
                [("app/x", 0); ("app/y", 1)] [("x", 0); ("y", 1)].

(** A settings file that also names the writable [app/y]. *)
Definition fileB : ini_io.ini_file := [("app", [("x", "5"); ("y", "2"); ("gone", "7")])].

Definition app2 : BaseApp.app :=
  BaseApp.mkApp objects [("conf/fileB.ini", fileB)] can_open
                [("app/x", 0); ("app/y", 1)] [("x", 0); ("y", 1)].

(** One missing, one writable and one protected path. *)
Definition three_paths : dict value :=
  [("app/gone", VInt 5); ("app/y", VInt 2); ("app/x", VInt 3)].

(** A browser as its constructor leaves it (the [file_info] view added and
    set up) after three more views [A], [B], [C] and a plugin [P] were
    added; [B] and [C] support ["x.dat"]. *)
Definition browser_objects (l : loc) : LoggedQuantity :=
  match l with
  | 0 => mkLQ "app/data_filename" (VStr "") false [] []
  | 1 => mkLQ "app/view_name" (VStr "file_info") false [] ["file_info"; "A"; "B"; "C"]
  | 2 => mkLQ "view/A/x" (VInt 3) false [] []
  | 3 => mkLQ "plugin/P/gain" (VInt 1) false [] []
  | _ => blank
  end.

Definition browser_views (v : DataBrowser.vloc) : DataBrowser.DataBrowserView :=
  match v with
  | 0 => DataBrowser.mkView "file_info" [] true (fun _ => false) 1
  | 1 => DataBrowser.mkView "A" [("x", 2)] false (fun _ => false) 0
  | 2 => DataBrowser.mkView "B" [] false (fun f => String.eqb f "x.dat") 0
  | 3 => DataBrowser.mkView "C" [] false (fun f => String.eqb f "x.dat") 0
  | _ => DataBrowser.mkView "" [] false (fun _ => false) 0
  end.

(** The browser before [A], [B] and [C] were added. *)
Definition browser_init : DataBrowser.browser :=
  DataBrowser.mkBrowser
    (BaseApp.mkApp browser_objects [] can_open
       [("app/data_filename", 0); ("app/view_name", 1)]
       [("data_filename", 0); ("view_name", 1)])
    browser_views
    [("file_info", 0)]
    []
    0 [0] 0 [("file_info", 0)].

Definition browser0 : DataBrowser.browser :=
  DataBrowser.mkBrowser
    (BaseApp.mkApp browser_objects [] can_open
       [("app/data_filename", 0); ("app/view_name", 1);
        ("view/A/x", 2); ("plugin/P/gain", 3)]
       [("data_filename", 0); ("view_name", 1)])
    browser_views
    [("file_info", 0); ("A", 1); ("B", 2); ("C", 3)]
    [("P", DataBrowser.mkPlugin "P" [("gain", 3)])]
    0 [0] 0 [("file_info", 0)].

End Sample.

(** * Properties *)

(** ** Dictionaries *)
Section dict_facts.
Context {V : Type}.
Implicit Types (d : dict V) (k : string) (v : V).

Lemma dict_get_set_eq k v d : dict_get k (dict_set k v d) = Some v.
Proof.
  induction d as [|[k' v'] d IH]; simpl.
  - now rewrite String.eqb_refl.
  - destruct (String.eqb k k') eqn:E; simpl.
    + now rewrite String.eqb_refl.
    + now rewrite E.
Qed.

Lemma dict_get_set_ne k k' v d :
  k <> k' -> dict_get k' (dict_set k v d) = dict_get k' d.
Proof.
  intros Hne. induction d as [|[k0 v0] d IH]; simpl.
  - apply String.eqb_neq in Hne. rewrite String.eqb_sym in Hne. now rewrite Hne.
  - destruct (String.eqb k k0) eqn:E; simpl.
    + apply String.eqb_eq in E. subst k0.
      destruct (String.eqb k' k) eqn:E'; [|reflexivity].
      apply String.eqb_eq in E'. congruence.
    + now rewrite IH.
Qed.

Lemma dict_get_None_keys k d : dict_get k d = None <-> k ∉ dict_keys d.
Proof.
  induction d as [|[k' v'] d IH]; simpl.
  - split; [intros _; apply not_elem_of_nil | reflexivity].
  - rewrite not_elem_of_cons. destruct (String.eqb k k') eqn:E.
    + apply String.eqb_eq in E. subst. split; [discriminate | tauto].
    + apply String.eqb_neq in E. rewrite IH. tauto.
Qed.

Lemma dict_get_Some_elem k v d : dict_get k d = Some v -> (k, v) ∈ d.
Proof.
  induction d as [|[k' v'] d IH]; simpl; [discriminate|].
  destruct (String.eqb k k') eqn:E.
  - apply String.eqb_eq in E. intros [= ->]. subst. apply elem_of_cons. now left.
  - intros H. apply elem_of_cons. right. now apply IH.
Qed.

Lemma elem_dict_keys k v d : (k, v) ∈ d -> k ∈ dict_keys d.
Proof.
  intros H. apply list_elem_of_In. apply list_elem_of_In in H.
  change k with (fst (k, v)). now apply in_map.
Qed.

Lemma dict_get_elem_NoDup k v d :
  NoDup (dict_keys d) -> (k, v) ∈ d -> dict_get k d = Some v.
Proof.
  induction d as [|[k' v'] d IH]; simpl.
  - intros _ H. now apply elem_of_nil in H.
  - intros Hnd H. apply NoDup_cons in Hnd as [Hni Hnd].
    apply elem_of_cons in H as [H|H].
    + inversion H; subst. now rewrite String.eqb_refl.
    + destruct (String.eqb k k') eqn:E.
      * apply String.eqb_eq in E. subst. exfalso. apply Hni.
        eapply elem_dict_keys, H.
      * now apply IH.
Qed.

Lemma dict_keys_set k v d :
  dict_keys (dict_set k v d) =
  if dict_contains k d then dict_keys d else dict_keys d ++ [k].
Proof.
  unfold dict_contains. induction d as [|[k' v'] d IH]; simpl; [reflexivity|].
  destruct (String.eqb k k') eqn:E; simpl.
  - apply String.eqb_eq in E. now subst.
  - rewrite IH. now destruct (dict_get k d).
Qed.

Lemma dict_set_NoDup k v d :
  NoDup (dict_keys d) -> NoDup (dict_keys (dict_set k v d)).
Proof.
  intros Hnd. rewrite dict_keys_set. unfold dict_contains.
  destruct (dict_get k d) eqn:E; [assumption|].
  apply dict_get_None_keys in E.
  apply NoDup_app. split; [assumption|]. split.
  - intros x Hx Hx'. apply list_elem_of_singleton in Hx'. now subst.
  - apply NoDup_singleton.
Qed.

Lemma dict_pop_absent k d : dict_get k d = None -> dict_pop k d = d.
Proof.
  induction d as [|[k' v'] d IH]; simpl; [reflexivity|].
  destruct (String.eqb k k'); [discriminate|]. intros H. now rewrite IH.
Qed.

Lemma dict_pop_keys_incl k d x : x ∈ dict_keys (dict_pop k d) -> x ∈ dict_keys d.
Proof.
  induction d as [|[k' v'] d IH]; simpl; [tauto|].
  destruct (String.eqb k k'); simpl; rewrite ?elem_of_cons; tauto.
Qed.

Lemma dict_pop_NoDup k d :
  NoDup (dict_keys d) -> NoDup (dict_keys (dict_pop k d)).
Proof.
  induction d as [|[k' v'] d IH]; simpl; [trivial|].
  intros Hnd. apply NoDup_cons in Hnd as [Hni Hnd].
  destruct (String.eqb k k'); simpl; [assumption|].
  apply NoDup_cons. split; [|now apply IH].
  intros H. apply Hni. eapply dict_pop_keys_incl, H.
Qed.

Lemma dict_get_pop_eq k d :
  NoDup (dict_keys d) -> dict_get k (dict_pop k d) = None.
Proof.
  induction d as [|[k' v'] d IH]; simpl; [reflexivity|].
  intros Hnd. apply NoDup_cons in Hnd as [Hni Hnd].
  destruct (String.eqb k k') eqn:E; simpl.
  - apply String.eqb_eq in E. subst. now apply dict_get_None_keys.
  - rewrite E. now apply IH.
Qed.

Lemma dict_get_pop_ne k k' d :
  k <> k' -> dict_get k' (dict_pop k d) = dict_get k' d.
Proof.
  intros Hne. induction d as [|[k0 v0] d IH]; simpl; [reflexivity|].
  destruct (String.eqb k k0) eqn:E; simpl.
  - apply String.eqb_eq in E. subst k0.
    destruct (String.eqb k' k) eqn:E'; [|reflexivity].
    apply String.eqb_eq in E'. congruence.
  - now rewrite IH.
Qed.

Lemma dict_contains_get k d :
  dict_contains k d = true <-> exists v, dict_get k d = Some v.
Proof.
  unfold dict_contains. destruct (dict_get k d); split; eauto; try discriminate.
  intros [v [=]].
Qed.

Lemma dict_get_set k k' v d :
  dict_get k' (dict_set k v d) = if String.eqb k k' then Some v else dict_get k' d.
Proof.
  destruct (String.eqb k k') eqn:E.
  - apply String.eqb_eq in E. subst. apply dict_get_set_eq.
  - apply String.eqb_neq in E. now apply dict_get_set_ne.
Qed.

Lemma dict_set_length_present k v d :
  dict_contains k d = true -> length (dict_set k v d) = length d.
Proof.
  unfold dict_contains. induction d as [|[k' v'] d IH]; cbn; [discriminate|].
  destruct (String.eqb k k'); cbn; [reflexivity|]. intros H. now rewrite IH.
Qed.

Lemma dict_get_app k (d1 d2 : dict V) :
  dict_get k (d1 ++ d2) =
  match dict_get k d1 with Some v => Some v | None => dict_get k d2 end.
Proof.
  induction d1 as [|[k' v'] d1 IH]; cbn; [reflexivity|].
  now destruct (String.eqb k k').
Qed.

Lemma dict_set_elem k v k' v' d :
  (k', v') ∈ dict_set k v d -> (k', v') = (k, v) \/ (k', v') ∈ d.
Proof.
  induction d as [|[k0 v0] d IH]; cbn.
  - rewrite list_elem_of_singleton. tauto.
  - destruct (String.eqb k k0); rewrite !elem_of_cons; [tauto|].
    intros [H|H]; [tauto|]. destruct (IH H); tauto.
Qed.

(** Assigning the pairs of a list one after the other: the last pair
    with a key decides. *)
Lemma assign_all_lookup (items : list (string * V)) : forall acc k,
  dict_get k (fold_left (fun d '(p, v) => dict_set p v d) items acc) =
  match dict_get k (rev items) with Some v => Some v | None => dict_get k acc end.
Proof.
  induction items as [|[p v] items IH]; intros acc k; cbn; [reflexivity|].
  rewrite IH, dict_get_app. destruct (dict_get k (rev items)); [reflexivity|].
  cbn. rewrite dict_get_set, String.eqb_sym. now destruct (String.eqb k p).
Qed.

(** A comprehension over a list of keys. *)
Lemma comprehension_lookup (g : string -> V) (ps : list string) k : forall acc,
  dict_get k (fold_left (fun d p => dict_set p (g p) d) ps acc) =
  if bool_decide (k ∈ ps) then Some (g k) else dict_get k acc.
Proof.
  induction ps as [|p ps IH]; intros acc.
  - cbn. rewrite bool_decide_eq_false_2; [reflexivity | apply not_elem_of_nil].
  - simpl fold_left. rewrite IH, dict_get_set.
    destruct (String.eqb p k) eqn:E.
    + apply String.eqb_eq in E. subst.
      rewrite (bool_decide_eq_true_2 (k ∈ k :: _)); [|apply elem_of_cons; now left].
      now destruct (bool_decide _).
    + apply String.eqb_neq in E.
      destruct (bool_decide (k ∈ ps)) eqn:B.
      * apply bool_decide_eq_true_1 in B.
        rewrite bool_decide_eq_true_2; [reflexivity | apply elem_of_cons; now right].
      * apply bool_decide_eq_false_1 in B.
        rewrite bool_decide_eq_false_2; [reflexivity|].
        rewrite elem_of_cons. intros [?|?]; [congruence | tauto].
Qed.

Lemma comprehension_keys (g : string -> V) (ps : list string) :
  NoDup ps ->
  forall acc,
    (forall k, k ∈ ps -> k ∉ dict_keys acc) ->
    dict_keys (fold_left (fun d p => dict_set p (g p) d) ps acc) = dict_keys acc ++ ps.
Proof.
  induction ps as [|p ps IH]; intros Hnd acc Hfresh.
  - cbn. now rewrite app_nil_r.
  - apply NoDup_cons in Hnd as [Hni Hnd]. simpl fold_left.
    rewrite IH; [|assumption|].
    + rewrite dict_keys_set. unfold dict_contains.
      assert (Hp : dict_get p acc = None).
      { apply dict_get_None_keys, Hfresh. apply elem_of_cons. now left. }
      rewrite Hp. now rewrite <- app_assoc.
    + intros k Hk. rewrite dict_keys_set. unfold dict_contains.
      assert (Hk' : k ∉ dict_keys acc).
      { apply Hfresh. apply elem_of_cons. now right. }
      destruct (dict_get p acc); [assumption|].
      rewrite elem_of_app, list_elem_of_singleton. intros [?|Heq]; [tauto|].
      subst k. tauto.
Qed.

End dict_facts.

Lemma fold_left_keys {A V} (f : A -> string -> A) (items : dict V) (acc : A) :
  fold_left (fun r (e : string * V) => f r (fst e)) items acc
  = fold_left f (dict_keys items) acc.
Proof.
  revert acc. induction items as [|[p v] items IH]; intros acc; cbn; [reflexivity|].
  apply IH.
Qed.

(** ** Splitting and joining paths *)
Section paths.

Lemma split_nonempty s : split s <> [].
Proof.
  destruct s as [|c r]; cbn; [discriminate|].
  destruct (Ascii.eqb c "/"); [discriminate|]. destruct (split r); discriminate.
Qed.

Lemma split_no_slash k : no_slash k = true -> split k = [k].
Proof.
  induction k as [|c r IH]; cbn; [reflexivity|].
  destruct (Ascii.eqb c "/"); cbn; [discriminate|]. intros H. now rewrite IH.
Qed.

Lemma split_segments s : Forall (fun k => no_slash k = true) (split s).
Proof.
  induction s as [|c r IH]; cbn.
  - now repeat constructor.
  - destruct (Ascii.eqb c "/") eqn:E; [now constructor|].
    destruct (split r) as [|h t]; constructor; cbn; try constructor.
    + now rewrite E.
    + rewrite E. cbn. now inversion IH.
    + now inversion IH.
Qed.

Lemma join_split s : join (split s) = s.
Proof.
  induction s as [|c r IH]; cbn; [reflexivity|].
  destruct (Ascii.eqb c "/") eqn:E.
  - apply Ascii.eqb_eq in E. subst c.
    destruct (split r) as [|h t] eqn:Er; [now destruct (split_nonempty r)|].
    change (join ("" :: h :: t)) with ("" ++ "/" ++ join (h :: t))%string.
    now rewrite IH.
  - destruct (split r) as [|h t] eqn:Er; [now destruct (split_nonempty r)|].
    destruct t as [|h' t]; cbn in *; now rewrite <- IH.
Qed.

Lemma split_append sec k :
  no_slash k = true -> split (sec ++ "/" ++ k)%string = split sec ++ [k].
Proof.
  intros Hk. induction sec as [|c r IH].
  - change (split (String "/" k) = [""; k]). cbn. now rewrite split_no_slash.
  - change (split (String c (r ++ "/" ++ k)) = split (String c r) ++ [k]). cbn.
    destruct (Ascii.eqb c "/"); [now rewrite IH|].
    rewrite IH. destruct (split r) as [|h t] eqn:Er; [now destruct (split_nonempty r)|].
    reflexivity.
Qed.

Lemma string_append_assoc (a b c : string) :
  (a ++ (b ++ c))%string = ((a ++ b) ++ c)%string.
Proof.
  induction a as [|x a IH]; [reflexivity|].
  change (String x (a ++ (b ++ c)) = String x ((a ++ b) ++ c))%string.
  now rewrite IH.
Qed.

End paths.

(** ** The path registry *)
Section registry.
Import BaseApp.

Lemma app_eta (a : app) :
  mkApp (lqs a) (fs a) (writable a) (_setting_paths a) (settings a) = a.
Proof. now destruct a. Qed.

(** C9: the registry never holds two entries for one path: registering and
    unregistering keep its keys free of duplicates; registering a second
    Setting at the path of a first leaves exactly the second resolvable
    there, the first (registered nowhere else) being out of reach from
    every path; unregistering a Setting whose path is not registered
    returns normally and changes nothing. *)
Theorem registry_last_register_wins (a : app) (lq1 lq2 lq : loc) :
  NoDup (dict_keys (_setting_paths a)) ->
  path (lqs a lq1) = path (lqs a lq2) ->
  exists a1 a2 a3,
    add_setting_path lq1 a = Return tt a1
    /\ add_setting_path lq2 a1 = Return tt a2
    /\ remove_setting_path lq a = Return tt a3
    /\ NoDup (dict_keys (_setting_paths a1))
    /\ NoDup (dict_keys (_setting_paths a2))
    /\ NoDup (dict_keys (_setting_paths a3))
    /\ get_lq (path (lqs a lq1)) a1 = Return (Some lq1) a1
    /\ get_lq (path (lqs a lq2)) a2 = Return (Some lq2) a2
    /\ length (_setting_paths a2) = length (_setting_paths a1)
    /\ (lq1 <> lq2 ->
        (forall q, dict_get q (_setting_paths a) <> Some lq1) ->
        forall q, get_lq q a2 <> Return (Some lq1) a2)
    /\ (dict_get (path (lqs a lq)) (_setting_paths a) = None -> a3 = a).
Proof.
  intros Hnd Hpath.
  eexists _, _, _. split; [reflexivity|]. split; [reflexivity|].
  split; [reflexivity|]. cbn.
  repeat split.
  - now apply dict_set_NoDup.
  - now apply dict_set_NoDup, dict_set_NoDup.
  - now apply dict_pop_NoDup.
  - unfold get_lq, gets; cbn. now rewrite dict_get_set_eq.
  - unfold get_lq, gets; cbn. rewrite Hpath. now rewrite dict_get_set_eq.
  - rewrite Hpath. apply dict_set_length_present.
    apply dict_contains_get. eexists. apply dict_get_set_eq.
  - intros Hne Hfresh q. unfold get_lq, gets; cbn. intros [= Hq].
    rewrite Hpath in Hq. rewrite !dict_get_set in Hq.
    destruct (String.eqb (path (lqs a lq2)) q); [congruence|].
    now apply (Hfresh q).
  - intros Habs. rewrite (dict_pop_absent _ _ Habs). apply app_eta.
Qed.

End registry.

(** ** Bulk operations, entry by entry *)
Section entries.
Import BaseApp.
Variable guard : LoggedQuantity -> bool.
Variable method : value -> LoggedQuantity -> LoggedQuantity.
Hypothesis guard_stable : forall v q, guard (method v q) = guard q.

Local Abbreviation run := (fold_left (entry_effect guard method)).

Lemma entry_effect_paths a e :
  _setting_paths (entry_effect guard method a e) = _setting_paths a.
Proof.
  unfold entry_effect. destruct (dict_get _ _); [|reflexivity].
  now destruct (guard _).
Qed.

Lemma entry_effect_fs a e : fs (entry_effect guard method a e) = fs a.
Proof.
  unfold entry_effect. destruct (dict_get _ _); [|reflexivity].
  now destruct (guard _).
Qed.

Lemma entry_effect_lookup a e l :
  lqs (entry_effect guard method a e) l =
  if bool_decide (dict_get (fst e) (_setting_paths a) = Some l) && guard (lqs a l)
  then method (snd e) (lqs a l) else lqs a l.
Proof.
  unfold entry_effect. destruct (dict_get _ _) as [l'|] eqn:E.
  - case_bool_decide as Hl.
    + injection Hl as ->. cbn. destruct (guard _); cbn; [|reflexivity].
      apply fn_lookup_insert.
    + cbn. destruct (guard _); cbn; [|reflexivity].
      apply fn_lookup_insert_ne. congruence.
  - now rewrite bool_decide_eq_false_2.
Qed.

Lemma run_paths items a : _setting_paths (run items a) = _setting_paths a.
Proof.
  revert a. induction items as [|e items IH]; intros a; cbn; [reflexivity|].
  now rewrite IH, entry_effect_paths.
Qed.

Lemma run_fs items a : fs (run items a) = fs a.
Proof.
  revert a. induction items as [|e items IH]; intros a; cbn; [reflexivity|].
  now rewrite IH, entry_effect_fs.
Qed.

(** What the method leaves alone, the whole walk leaves alone. *)
Lemma run_preserves {B} (proj : LoggedQuantity -> B) items a l :
  (forall v q, proj (method v q) = proj q) ->
  proj (lqs (run items a) l) = proj (lqs a l).
Proof.
  intros Hproj. revert a. induction items as [|e items IH]; intros a; cbn; [reflexivity|].
  rewrite IH, entry_effect_lookup. now destruct (_ && _).
Qed.

(** An object that no entry reaches through the guard is left as it was. *)
Lemma run_untouched items a l :
  (forall p v, (p, v) ∈ items -> dict_get p (_setting_paths a) = Some l ->
               guard (lqs a l) = false) ->
  lqs (run items a) l = lqs a l.
Proof.
  revert a. induction items as [|[p v] items IH]; intros a H; cbn; [reflexivity|].
  rewrite IH.
  - rewrite entry_effect_lookup. cbn. case_bool_decide as Hl; [|reflexivity].
    rewrite (H p v); [reflexivity| |assumption]. apply elem_of_cons. now left.
  - intros p' v' Hin. rewrite entry_effect_paths, entry_effect_lookup. cbn.
    intros Hl. assert (Hg := H p' v' (proj2 (elem_of_cons _ _ _) (or_intror Hin)) Hl).
    destruct (_ && _); [rewrite guard_stable|]; exact Hg.
Qed.

(** An object reached by exactly one entry has the method applied once. *)
Lemma run_single items a p v l :
  NoDup (dict_keys items) ->
  (p, v) ∈ items ->
  dict_get p (_setting_paths a) = Some l ->
  guard (lqs a l) = true ->
  (forall p' v', (p', v') ∈ items -> dict_get p' (_setting_paths a) = Some l -> p' = p) ->
  lqs (run items a) l = method v (lqs a l).
Proof.
  revert a. induction items as [|[p0 v0] items IH]; intros a Hnd Hin Hl Hg Huniq.
  - now apply elem_of_nil in Hin.
  - cbn in Hnd. apply NoDup_cons in Hnd as [Hni Hnd].
    apply elem_of_cons in Hin as [Hin|Hin]; cbn.
    + injection Hin as <- <-. rewrite run_untouched.
      * rewrite entry_effect_lookup. cbn. now rewrite bool_decide_eq_true_2, Hg.
      * intros p' v' Hin'. rewrite entry_effect_paths. intros Hl'.
        exfalso. apply Hni.
        rewrite <- (Huniq p' v'); [apply (elem_dict_keys _ v'), Hin'| |assumption].
        apply elem_of_cons. now right.
    + assert (Hne : p0 <> p).
      { intros ->. apply Hni. apply (elem_dict_keys _ v), Hin. }
      assert (Hsame : lqs (entry_effect guard method a (p0, v0)) l = lqs a l).
      { rewrite entry_effect_lookup. cbn. case_bool_decide as Hl0; [|reflexivity].
        exfalso. apply Hne. apply (Huniq p0 v0); [|assumption].
        apply elem_of_cons. now left. }
      rewrite IH; try assumption.
      * now rewrite Hsame.
      * now rewrite entry_effect_paths.
      * now rewrite Hsame.
      * intros p' v' Hin'. rewrite entry_effect_paths. intros Hl'.
        apply (Huniq p' v'); [|assumption]. apply elem_of_cons. now right.
Qed.

End entries.

Section bulk.
Import BaseApp.

Lemma write_setting_safe_eq p v a :
  write_setting_safe p v a =
  Return (result_code a p) (entry_effect unprotected write_method a (p, v)).
Proof.
  unfold write_setting_safe, result_code, entry_effect, get_lq, bind, gets, unprotected; cbn.
  destruct (dict_get p (_setting_paths a)) as [l|]; [|reflexivity].
  now destruct (protected (lqs a l)).
Qed.

Lemma result_code_stable items a p :
  result_code (fold_left (entry_effect unprotected write_method) items a) p = result_code a p.
Proof.
  unfold result_code. rewrite run_paths.
  destruct (dict_get p (_setting_paths a)) as [l|]; [|reflexivity].
  now rewrite (run_preserves unprotected write_method protected).
Qed.

Lemma write_settings_safe_loop_eq items : forall report a,
  write_settings_safe_loop items report a =
  Return (fold_left (fun r e => dict_set (fst e) (result_code a (fst e)) r) items report)
         (fold_left (entry_effect unprotected write_method) items a).
Proof.
  induction items as [|[p v] items IH]; intros report a; cbn; [reflexivity|].
  unfold bind. rewrite write_setting_safe_eq, IH. f_equal.
  generalize (dict_set p (result_code a p) report). clear IH.
  induction items as [|[p' v'] items IH]; intros r; cbn; [reflexivity|].
  rewrite IH. cbn. f_equal. f_equal.
  apply (result_code_stable [(p, v)]).
Qed.

Lemma propose_settings_values_eq name items a :
  propose_settings_values name items a =
  Return tt (fold_left (entry_effect (fun _ => true) (propose_method name)) items a).
Proof.
  unfold propose_settings_values. revert a.
  induction items as [|[p v] items IH]; intros a; cbn; [reflexivity|].
  unfold bind at 1. unfold bind at 1. unfold get_lq at 1, gets at 1.
  replace (entry_effect _ _ a (p, v))
    with (state_of (match dict_get p (_setting_paths a) with
                    | Some l => on_lq l (fun q => propose_value q name v) a
                    | None => ret tt a
                    end)).
  - destruct (dict_get p (_setting_paths a)); cbn; apply IH.
  - unfold entry_effect. cbn. now destruct (dict_get p (_setting_paths a)).
Qed.

End bulk.

(** ** Single and bulk writes *)
Section writes.
Import BaseApp.

(** C1: on a path that resolves to a protected Setting, [write_setting_safe]
    reports PROTECTED and leaves the whole state as it was; [write_setting]
    on a resolving path, protected or not, stores the value in that Setting
    (and touches nothing else) and reports SUCCESS; on a path that does not
    resolve both report MISSING and change nothing. *)
Theorem protected_write_invariant (a : app) (p : string) (v : value) :
  (forall l, get_lq p a = Return (Some l) a ->
     (protected (lqs a l) = true -> write_setting_safe p v a = Return PROTECTED a)
     /\ exists a',
          write_setting p v a = Return SUCCESS a'
          /\ val (lqs a' l) = v
          /\ protected (lqs a' l) = protected (lqs a l)
          /\ (forall l', l' <> l -> lqs a' l' = lqs a l')
          /\ _setting_paths a' = _setting_paths a)
  /\ (get_lq p a = Return None a ->
      write_setting_safe p v a = Return MISSING a
      /\ write_setting p v a = Return MISSING a).
Proof.
  unfold get_lq, gets. split.
  - intros l [= Hl]. split.
    + intros Hprot. unfold write_setting_safe, get_lq, bind, gets. now rewrite Hl, Hprot.
    + eexists. unfold write_setting, get_lq, bind, gets. rewrite Hl. cbn.
      split; [reflexivity|]. cbn. rewrite fn_lookup_insert. cbn.
      repeat split. intros l' Hne. now apply fn_lookup_insert_ne.
  - intros [= Hl]. unfold write_setting_safe, write_setting, get_lq, bind, gets.
    now rewrite Hl.
Qed.

(** C3: [write_settings_safe] returns for every mapping; its report has the
    keys of the input, in order, each with the code of its own path (MISSING
    when the path is not registered, PROTECTED when its Setting is protected,
    SUCCESS otherwise); a Setting that no writable input path reaches is
    left as it was, and a Setting reached by one writable input path holds
    that entry's value. *)
Theorem write_settings_safe_report (a : app) (settings : dict value) :
  NoDup (dict_keys settings) ->
  exists report a',
    write_settings_safe settings a = Return report a'
    /\ dict_keys report = dict_keys settings
    /\ (forall p, p ∈ dict_keys settings -> dict_get p report = Some (result_code a p))
    /\ _setting_paths a' = _setting_paths a
    /\ (forall l,
          (forall p v, (p, v) ∈ settings -> result_code a p = SUCCESS ->
                       dict_get p (_setting_paths a) <> Some l) ->
          lqs a' l = lqs a l)
    /\ (forall p v l,
          (p, v) ∈ settings ->
          dict_get p (_setting_paths a) = Some l ->
          result_code a p = SUCCESS ->
          (forall p' v', (p', v') ∈ settings ->
                         dict_get p' (_setting_paths a) = Some l -> p' = p) ->
          lqs a' l = update_value (lqs a l) v).
Proof.
  intros Hnd. unfold write_settings_safe. rewrite write_settings_safe_loop_eq.
  eexists _, _. split; [reflexivity|]. repeat split.
  - rewrite (fold_left_keys (fun r k => dict_set k (result_code a k) r)).
    rewrite comprehension_keys; [reflexivity|assumption|].
    intros k _. apply not_elem_of_nil.
  - intros p Hp. rewrite (fold_left_keys (fun r k => dict_set k (result_code a k) r)).
    rewrite comprehension_lookup. now rewrite bool_decide_eq_true_2.
  - apply run_paths.
  - intros l H. apply run_untouched; [reflexivity|].
    intros p v Hin Hl. specialize (H p v Hin). unfold result_code in H.
    rewrite Hl in H. unfold unprotected.
    destruct (protected (lqs a l)); [reflexivity|]. now exfalso; apply H.
  - intros p v l Hin Hl Hcode Huniq.
    apply (run_single unprotected write_method) with (p := p); try assumption.
    + reflexivity.
    + unfold result_code in Hcode. rewrite Hl in Hcode. unfold unprotected.
      now destruct (protected (lqs a l)).
Qed.

(** The bulk example of the specification: a missing, a writable and a
    protected path. *)
Example write_settings_safe_three_paths :
  result_of (write_settings_safe Sample.three_paths Sample.app0)
  = Some [("app/gone", MISSING); ("app/y", SUCCESS); ("app/x", PROTECTED)]
  /\ val (lqs (state_of (write_settings_safe Sample.three_paths Sample.app0)) 0) = VInt 10
  /\ val (lqs (state_of (write_settings_safe Sample.three_paths Sample.app0)) 1) = VInt 2.
Proof. repeat split. Qed.

(** A registered path always reads: [read_settings] with [paths=None]
    returns one item per registered path. *)
Lemma dict_comprehension_registered (flag : bool) (a : app) (ps : list string) :
  (forall p, p ∈ ps -> exists l, dict_get p (_setting_paths a) = Some l) ->
  forall acc,
    dict_comprehension ps (fun p => read_setting p flag) acc a =
    Return (fold_left (fun d p =>
              dict_set p (match dict_get p (_setting_paths a) with
                          | Some l => if flag then VStr (ini_string_value (lqs a l))
                                      else val (lqs a l)
                          | None => VStr ""
                          end) d) ps acc) a.
Proof.
  induction ps as [|p ps IH]; intros Hreg acc; cbn; [reflexivity|].
  destruct (Hreg p) as [l Hl]; [apply elem_of_cons; now left|].
  unfold bind at 1. unfold read_setting at 1, get_lq, bind, gets. rewrite Hl.
  destruct flag; cbn; (rewrite IH; [reflexivity|]);
    intros q Hq; apply Hreg, elem_of_cons; now right.
Qed.

(** A path without a registered Setting makes the whole read raise. *)
Lemma read_settings_raises (a : app) (p : string) (rest : list string) (flag : bool) :
  dict_get p (_setting_paths a) = None ->
  read_settings (Some (p :: rest)) flag a = Raise AttributeError a.
Proof.
  intros Hp. unfold read_settings, bind, ret. cbn.
  unfold bind, read_setting, get_lq, bind, gets. now rewrite Hp.
Qed.

(** C4: [read_settings] on a list that names a path without a registered
    Setting raises AttributeError ([read_setting] dereferences the [None]
    that [get_lq] returned) instead of aggregating a per-item result; the
    registered path that follows is never read. *)
Theorem read_settings_missing_path_raises :
  read_settings (Some ["app/gone"; "app/y"]) false Sample.app0
  = Raise AttributeError Sample.app0
  /\ read_settings (Some ["app/gone"; "app/y"]) true Sample.app0
    = Raise AttributeError Sample.app0
  /\ read_settings None false Sample.app0
    = Return [("app/x", VInt 10); ("app/y", VInt 1)] Sample.app0.
Proof. repeat split. Qed.

End writes.

(** ** Loading a settings file *)
Section loading.
Import BaseApp.

Lemma of_file_NoDup (f : ini_io.ini_file) : NoDup (dict_keys (ini_io.of_file f)).
Proof.
  unfold ini_io.of_file.
  assert (H : forall (items : list (string * value)) acc,
             NoDup (dict_keys acc) ->
             NoDup (dict_keys (fold_left (fun d '(p, v) => dict_set p v d) items acc))).
  { induction items as [|[p v] items IH]; intros acc Hacc; cbn; [assumption|].
    now apply IH, dict_set_NoDup. }
  apply H. constructor.
Qed.

Lemma settings_load_ini_eq (a : app) (fname : string) (f : ini_io.ini_file) :
  dict_get fname (fs a) = Some f ->
  settings_load_ini fname a =
  Return (ini_io.of_file f)
    (fold_left (entry_effect (fun _ => true) (propose_method (Path_name fname)))
       (ini_io.of_file f)
       (fold_left (entry_effect unprotected write_method) (ini_io.of_file f) a)).
Proof.
  intros Hf. unfold settings_load_ini, bind, ini_io.load_settings. rewrite Hf.
  unfold write_settings_safe. rewrite write_settings_safe_loop_eq.
  now rewrite propose_settings_values_eq.
Qed.

(** C7 (as the code has it): loading a file applies every loaded pair
    through the safe write and then records the loaded value, under the
    file's name, on every Setting that a loaded path resolves to, protected
    ones included; a protected Setting keeps its value; a loaded path that
    does not resolve is skipped, and a Setting no loaded path resolves to is
    left as it was.  A Setting that one loaded path resolves to ends as that
    Setting with the loaded value written by [update_value], unless it is
    protected, and then proposed under the file's name. *)
Theorem settings_load_ini_proposals (a : app) (fname : string) (f : ini_io.ini_file) :
  dict_get fname (fs a) = Some f ->
  exists a',
    settings_load_ini fname a = Return (ini_io.of_file f) a'
    /\ _setting_paths a' = _setting_paths a
    /\ (forall l, protected (lqs a l) = true ->
                  val (lqs a' l) = val (lqs a l) /\ protected (lqs a' l) = true)
    /\ (forall p v l,
          (p, v) ∈ ini_io.of_file f ->
          dict_get p (_setting_paths a) = Some l ->
          (forall p' v', (p', v') ∈ ini_io.of_file f ->
                         dict_get p' (_setting_paths a) = Some l -> p' = p) ->
          dict_get (Path_name fname) (proposed_values (lqs a' l)) = Some v)
    /\ (forall l,
          (forall p v, (p, v) ∈ ini_io.of_file f ->
                       dict_get p (_setting_paths a) <> Some l) ->
          lqs a' l = lqs a l)
    /\ (forall p v l,
          (p, v) ∈ ini_io.of_file f ->
          dict_get p (_setting_paths a) = Some l ->
          (forall p' v', (p', v') ∈ ini_io.of_file f ->
                         dict_get p' (_setting_paths a) = Some l -> p' = p) ->
          lqs a' l =
          propose_value
            (if protected (lqs a l) then lqs a l else update_value (lqs a l) v)
            (Path_name fname) v).
Proof.
  intros Hf. eexists. split; [now apply settings_load_ini_eq|].
  set (loaded := ini_io.of_file f).
  set (a1 := fold_left (entry_effect unprotected write_method) loaded a).
  assert (Hreg1 : _setting_paths a1 = _setting_paths a) by apply run_paths.
  repeat split.
  - now rewrite run_paths.
  - rewrite (run_preserves (fun _ => true) _ val); [|reflexivity].
    unfold a1. rewrite run_untouched; [reflexivity|reflexivity|].
    intros. unfold unprotected. now rewrite H.
  - rewrite (run_preserves (fun _ => true) _ protected); [|reflexivity].
    unfold a1. now rewrite (run_preserves unprotected write_method protected).
  - intros p v l Hin Hl Huniq.
    rewrite (run_single (fun _ => true) (propose_method (Path_name fname)))
      with (p := p) (v := v); try reflexivity; try assumption.
    + cbn. apply dict_get_set_eq.
    + apply of_file_NoDup.
    + now rewrite Hreg1.
    + intros p' v' Hin'. rewrite Hreg1. now apply (Huniq p' v').
  - intros l Hnone. rewrite run_untouched; [|reflexivity|].
    + unfold a1. rewrite run_untouched; [reflexivity|reflexivity|].
      intros p v Hin Hl. now destruct (Hnone p v Hin).
    + intros p v Hin. rewrite Hreg1. intros Hl. now destruct (Hnone p v Hin).
  - intros p v l Hin Hl Huniq.
    rewrite (run_single (fun _ => true) (propose_method (Path_name fname)))
      with (p := p) (v := v); try reflexivity; try assumption.
    + unfold propose_method. f_equal. unfold a1.
      destruct (protected (lqs a l)) eqn:Hprot.
      * apply run_untouched; [reflexivity|].
        intros p' v' _ _. unfold unprotected. now rewrite Hprot.
      * apply (run_single unprotected write_method) with (p := p); try assumption.
        -- reflexivity.
        -- apply of_file_NoDup.
        -- unfold unprotected. now rewrite Hprot.
    + apply of_file_NoDup.
    + now rewrite Hreg1.
    + intros p' v' Hin'. rewrite Hreg1. now apply (Huniq p' v').
Qed.

(** C7, as stated, fails: the file names [app/gone], which is not
    registered; the load returns both pairs, yet no Setting records the
    value 7 that the file gave for [app/gone]. *)
Lemma settings_load_ini_skips_unregistered :
  let o := settings_load_ini "conf/fileA.ini" Sample.app1 in
  result_of o = Some [("app/x", VStr "5"); ("app/gone", VStr "7")]
  /\ ~ (forall p v, (p, v) ∈ [("app/x", VStr "5"); ("app/gone", VStr "7")] ->
          exists l, dict_get "fileA.ini" (proposed_values (lqs (state_of o) l)) = Some v).
Proof.
  split; [reflexivity|]. intros H.
  destruct (H "app/gone" (VStr "7")) as [l Hl].
  - apply elem_of_cons. right. apply elem_of_cons. now left.
  - destruct l as [|[|[|l]]]; vm_compute in Hl; discriminate.
Qed.

(** The specification's example: a proposal on the protected Setting valued
    10 leaves the value and records what the file proposed. *)
Example settings_load_ini_protected_proposal :
  let a' := state_of (settings_load_ini "conf/fileA.ini" Sample.app1) in
  val (lqs a' 0) = VInt 10
  /\ proposed_values (lqs a' 0) = [("fileA.ini", VStr "5")].
Proof. split; reflexivity. Qed.

End loading.

(** ** Saving and loading back *)
Section persistence.
Import BaseApp.

Lemma read_settings_all (flag : bool) (a : app) :
  read_settings None flag a =
  Return (fold_left (fun d p =>
            dict_set p (match dict_get p (_setting_paths a) with
                        | Some l => if flag then VStr (ini_string_value (lqs a l))
                                    else val (lqs a l)
                        | None => VStr ""
                        end) d) (dict_keys (_setting_paths a)) []) a.
Proof.
  unfold read_settings, bind, gets. apply dict_comprehension_registered.
  intros p Hp. destruct (dict_get p (_setting_paths a)) as [l|] eqn:E; [eauto|].
  now apply dict_get_None_keys in E.
Qed.

End persistence.

(** ** Views of the data browser *)
Section views.
Import DataBrowser.

Lemma auto_select_loop_none objs fname items :
  (forall n w, (n, w) ∈ items -> is_file_supported (objs w) fname = false) ->
  auto_select_loop objs fname items = "file_info".
Proof.
  induction items as [|[n w] items IH]; intros H; cbn; [reflexivity|].
  rewrite (H n w); [|apply elem_of_cons; now left].
  apply IH. intros n' w' Hin. apply (H n' w'). apply elem_of_cons. now right.
Qed.

Lemma auto_select_loop_first objs fname skipped n v rest :
  (forall n' w, (n', w) ∈ skipped -> is_file_supported (objs w) fname = false) ->
  is_file_supported (objs v) fname = true ->
  auto_select_loop objs fname (skipped ++ (n, v) :: rest) = n.
Proof.
  induction skipped as [|[n0 w0] skipped IH]; intros Hskip Hv; cbn.
  - now rewrite Hv.
  - rewrite (Hskip n0 w0); [|apply elem_of_cons; now left].
    apply IH; [|assumption].
    intros n' w' Hin. apply (Hskip n' w'). apply elem_of_cons. now right.
Qed.

(** C6: [auto_select_view] returns the name of the view registered last
    among those that support the file: with [views] split as [before], the
    entry [(n, v)], [after], where [v] supports the file and no view in
    [after] does, the answer is [n]; when no registered view supports the
    file the answer is ["file_info"].  The state is not changed. *)
Theorem auto_select_view_last_supported (b : browser) (fname : string) :
  (forall before n v after,
     views b = before ++ (n, v) :: after ->
     is_file_supported (view_objs b v) fname = true ->
     (forall n' w, (n', w) ∈ after -> is_file_supported (view_objs b w) fname = false) ->
     auto_select_view fname b = Return n b)
  /\ ((forall n w, (n, w) ∈ views b -> is_file_supported (view_objs b w) fname = false) ->
      auto_select_view fname b = Return "file_info" b).
Proof.
  unfold auto_select_view, gets. split.
  - intros before n v after Hviews Hv Hafter. f_equal.
    rewrite Hviews, rev_app_distr. cbn. rewrite <- app_assoc. cbn.
    apply auto_select_loop_first; [|assumption].
    intros n' w Hin. apply (Hafter n' w).
    apply list_elem_of_In, in_rev. now apply list_elem_of_In.
  - intros Hnone. f_equal. apply auto_select_loop_none.
    intros n w Hin. apply (Hnone n w).
    apply list_elem_of_In, in_rev. now apply list_elem_of_In.
Qed.

(** Views registered in the order A, B, C, with B and C supporting the
    file: C is selected. *)
Example auto_select_view_ABC :
  auto_select_view "x.dat" Sample.browser0 = Return "C" Sample.browser0
  /\ auto_select_view "notes.txt" Sample.browser0 = Return "file_info" Sample.browser0.
Proof. split; reflexivity. Qed.

(** The same through [add_view]: registering A, B and C one after the other
    puts them in that order behind [file_info]. *)
Example auto_select_view_after_add_view :
  let run := (add_view 1 ;; add_view 2 ;; add_view 3 ;; auto_select_view "x.dat")%py in
  result_of (run Sample.browser_init) = Some "C"
  /\ views (state_of (run Sample.browser_init))
     = [("file_info", 0); ("A", 1); ("B", 2); ("C", 3)].
Proof. split; reflexivity. Qed.

(** C2: on the one-segment paths ["view"] and ["plugin"] [get_lq] of the
    data browser raises IndexError (it reads [parts[1]] of a one-element
    list), whatever the state, where its docstring promises [None]. *)
Theorem get_lq_one_segment_raises (b : browser) :
  get_lq "view" b = Raise IndexError b
  /\ get_lq "plugin" b = Raise IndexError b.
Proof. split; reflexivity. Qed.

(** The registry lookup of [BaseApp] returns for every path. *)
Lemma BaseApp_get_lq_total (a : BaseApp.app) (p : string) :
  exists r, BaseApp.get_lq p a = Return r a.
Proof. eexists. reflexivity. Qed.

(** *** Lazy set-up *)

Lemma setup_view_loaded (b : browser) (u : vloc) (i : nat) :
  view_loaded (view_objs b u) = true ->
  dict_get (name (view_objs b u)) (view_stack_indices b) = Some i ->
  setup_view u b = Return tt (set_view_stack_current i (set_current_view u b)).
Proof.
  intros Hl Hi. unfold setup_view, bind, gets, modify. rewrite Hl. cbn. now rewrite Hi.
Qed.

Lemma setup_view_unloaded (b : browser) (u : vloc) :
  view_loaded (view_objs b u) = false ->
  exists b',
    setup_view u b = Return tt b'
    /\ (forall w, view_objs b' w =
                  if bool_decide (w = u)
                  then mkView (name (view_objs b u)) (view_settings (view_objs b u)) true
                              (is_file_supported (view_objs b u))
                              (S (setup_calls (view_objs b u)))
                  else view_objs b w)
    /\ view_stack_indices b' =
       dict_set (name (view_objs b u)) (length (view_stack b)) (view_stack_indices b)
    /\ view_stack b' = view_stack b ++ [current_view b]
    /\ current_view b' = u
    /\ view_stack_current b' = length (view_stack b)
    /\ base b' = base b /\ views b' = views b.
Proof.
  intros Hl. unfold setup_view, bind, gets, modify, on_view. rewrite Hl. cbn.
  rewrite !fn_lookup_insert. cbn. rewrite dict_get_set_eq.
  eexists. split; [reflexivity|]. cbn. repeat split.
  intros w. case_bool_decide as Hw.
  - subst w. now rewrite fn_lookup_insert.
  - rewrite !fn_lookup_insert_ne by congruence. reflexivity.
Qed.

Lemma setup_view_step (b : browser) (u : vloc) :
  loaded_indexed b ->
  exists b',
    setup_view u b = Return tt b'
    /\ loaded_indexed b'
    /\ view_loaded (view_objs b' u) = true
    /\ setup_calls (view_objs b' u) =
       (if view_loaded (view_objs b u) then 0 else 1) + setup_calls (view_objs b u)
    /\ (forall w, w <> u -> view_objs b' w = view_objs b w).
Proof.
  intros Hinv. destruct (view_loaded (view_objs b u)) eqn:Hl.
  - destruct (proj1 (dict_contains_get _ _) (Hinv u Hl)) as [i Hi].
    eexists. split; [now apply setup_view_loaded with (i := i)|].
    split; [exact Hinv|]. split; [exact Hl|]. split; [reflexivity|]. reflexivity.
  - destruct (setup_view_unloaded b u Hl) as (b' & Hrun & Hobjs & Hidx & _).
    exists b'. split; [assumption|]. repeat split.
    + intros w. rewrite Hobjs, Hidx. case_bool_decide as Hw; cbn.
      * intros _. apply dict_contains_get. eexists. apply dict_get_set_eq.
      * intros Hw'. apply Hinv in Hw'. apply dict_contains_get in Hw' as [i Hi].
        apply dict_contains_get. rewrite dict_get_set.
        destruct (String.eqb _ _); eauto.
    + rewrite Hobjs. now rewrite bool_decide_eq_true_2.
    + rewrite Hobjs. now rewrite bool_decide_eq_true_2.
    + intros w Hw. rewrite Hobjs. now rewrite bool_decide_eq_false_2.
Qed.

(** C10: in a browser whose loaded views all have a stack index, any
    sequence of activations returns; over the whole sequence the setup
    routine of a view runs once if the view was unloaded and is activated at
    all, and not at all otherwise; a view once loaded stays loaded; and
    activating a loaded view changes nothing but the current view and the
    index on display. *)
Theorem setup_view_runs_setup_once (b : browser) (activations : list vloc) (v : vloc) :
  loaded_indexed b ->
  (exists b',
     for_each activations setup_view b = Return tt b'
     /\ loaded_indexed b'
     /\ setup_calls (view_objs b' v) =
        (if negb (view_loaded (view_objs b v)) && bool_decide (v ∈ activations)
         then 1 else 0) + setup_calls (view_objs b v)
     /\ view_loaded (view_objs b' v) =
        view_loaded (view_objs b v) || bool_decide (v ∈ activations))
  /\ (view_loaded (view_objs b v) = true ->
      exists i, dict_get (name (view_objs b v)) (view_stack_indices b) = Some i
                /\ setup_view v b =
                   Return tt (set_view_stack_current i (set_current_view v b))).
Proof.
  intros Hinv. split.
  - revert b Hinv. induction activations as [|u us IH]; intros b Hinv.
    + exists b. split; [reflexivity|]. split; [assumption|].
      rewrite bool_decide_eq_false_2 by apply not_elem_of_nil.
      now rewrite andb_false_r, orb_false_r.
    + destruct (setup_view_step b u Hinv) as (b1 & Hrun & Hinv1 & Hl1 & Hc1 & Hoth).
      destruct (IH b1 Hinv1) as (b' & Hrun' & Hinv' & Hc' & Hl').
      exists b'. split; [cbn; unfold bind; now rewrite Hrun|].
      split; [assumption|].
      destruct (decide (v = u)) as [->|Hne].
      * rewrite Hc', Hl', Hl1, Hc1.
        rewrite (bool_decide_eq_true_2 (u ∈ u :: us)) by (apply elem_of_cons; now left).
        destruct (view_loaded (view_objs b u)); cbn; split; reflexivity.
      * rewrite Hc', Hl', (Hoth v Hne).
        assert (Hmem : bool_decide (v ∈ u :: us) = bool_decide (v ∈ us)).
        { apply bool_decide_ext. rewrite elem_of_cons. tauto. }
        now rewrite Hmem.
  - intros Hl. destruct (proj1 (dict_contains_get _ _) (Hinv v Hl)) as [i Hi].
    exists i. split; [assumption|]. now apply setup_view_loaded.
Qed.

(** *** Path resolution *)

Lemma add_lq_collection_returns (ls : list loc) (a : BaseApp.app) :
  exists a',
    for_each ls BaseApp.add_setting_path a = Return tt a'
    /\ BaseApp.settings a' = BaseApp.settings a
    /\ BaseApp.lqs a' = BaseApp.lqs a
    /\ BaseApp.fs a' = BaseApp.fs a.
Proof.
  revert a. induction ls as [|l ls IH]; intros a; cbn.
  - exists a. repeat split.
  - unfold bind. cbn.
    destruct (IH (BaseApp.set_setting_paths
                    (dict_set (path (BaseApp.lqs a l)) l (BaseApp._setting_paths a)) a))
      as (a' & Hrun & Hs & Hl & Hf).
    exists a'. split; [exact Hrun|]. repeat split; assumption.
Qed.

Lemma add_view_returns (b : browser) (v : vloc) :
  dict_contains "view_name" (BaseApp.settings (base b)) = true ->
  exists b',
    add_view v b = Return v b'
    /\ view_objs b' = view_objs b
    /\ views b' = dict_set (name (view_objs b v)) v (views b)
    /\ plugins b' = plugins b
    /\ BaseApp.settings (base b') = BaseApp.settings (base b)
    /\ view_stack_indices b' = view_stack_indices b
    /\ current_view b' = current_view b.
Proof.
  intros Hvn. apply dict_contains_get in Hvn as [l Hl].
  unfold add_view, bind, gets, modify, inherited,
    BaseApp.add_lq_collection_to_settings_path. cbn.
  destruct (add_lq_collection_returns (dict_values (view_settings (view_objs b v))) (base b))
    as (a' & Hrun & Hs & _).
  rewrite Hrun. cbn. rewrite Hs. unfold collection_get_lq. rewrite Hl. cbn.
  eexists. split; [reflexivity|]. cbn. repeat split. exact Hs.
Qed.

Lemma member_lookup {S} (c : LQCollection) (n : string) (s : S) :
  (if dict_contains n c then ret (dict_get n c) else ret None) s
  = Return (dict_get n c) s.
Proof. unfold dict_contains. now destruct (dict_get n c). Qed.



End views.

Lemma setup_view_runs_setup_once_witness :
  loaded_indexed Sample.browser0
  /\ exists b',
       for_each [1; 1; 2; 1] DataBrowser.setup_view Sample.browser0 = Return tt b'
       /\ DataBrowser.setup_calls (DataBrowser.view_objs b' 1) = 1.
Proof.
  assert (Hinv : loaded_indexed Sample.browser0).
  { intros v. destruct v as [|[|[|[|v]]]]; cbn; intros H; try reflexivity; discriminate H. }
  split; [exact Hinv|].
  destruct (proj1 (setup_view_runs_setup_once Sample.browser0 [1; 1; 2; 1] 1 Hinv))
    as (b' & Hrun & _ & Hcalls & _).
  exists b'. split; [exact Hrun|]. exact Hcalls.
Defined.


Lemma auto_select_view_last_supported_witness :
  DataBrowser.views Sample.browser0 = [("file_info", 0); ("A", 1); ("B", 2)] ++ ("C", 3) :: []
  /\ DataBrowser.is_file_supported (DataBrowser.view_objs Sample.browser0 3) "x.dat" = true
  /\ DataBrowser.auto_select_view "x.dat" Sample.browser0 = Return "C" Sample.browser0.
Proof.
  split; [reflexivity|]. split; [reflexivity|].
  apply (proj1 (auto_select_view_last_supported Sample.browser0 "x.dat")
           [("file_info", 0); ("A", 1); ("B", 2)] "C" 3 []).
  - reflexivity.
  - reflexivity.
  - intros n' w Hin. now apply elem_of_nil in Hin.
Defined.

Lemma settings_load_ini_proposals_witness :
  dict_get "conf/fileB.ini" (BaseApp.fs Sample.app2) = Some Sample.fileB
  /\ exists a',
       BaseApp.settings_load_ini "conf/fileB.ini" Sample.app2
       = Return (ini_io.of_file Sample.fileB) a'
       /\ val (BaseApp.lqs a' 0) = VInt 10
       /\ dict_get "fileB.ini" (proposed_values (BaseApp.lqs a' 0)) = Some (VStr "5")
       /\ BaseApp.lqs a' 1
          = propose_value (update_value (Sample.objects 1) (VStr "2"))
                          "fileB.ini" (VStr "2").
Proof.
  split; [reflexivity|].
  destruct (settings_load_ini_proposals Sample.app2 "conf/fileB.ini" Sample.fileB eq_refl)
    as (a' & Hrun & _ & Hprot & Hprop & _ & Hobj).
  exists a'. split; [assumption|]. split; [exact (proj1 (Hprot 0 eq_refl))|]. split.
  - apply (Hprop "app/x" (VStr "5") 0); [apply dict_get_Some_elem; reflexivity | reflexivity |].
    intros p' v' Hin Hl.
    change (ini_io.of_file Sample.fileB)
      with [("app/x", VStr "5"); ("app/y", VStr "2"); ("app/gone", VStr "7")] in Hin.
    repeat (apply elem_of_cons in Hin as [Hin|Hin];
            [inversion Hin; subst; first [reflexivity | vm_compute in Hl; discriminate Hl]|]).
    now apply elem_of_nil in Hin.
  - apply (Hobj "app/y" (VStr "2") 1); [apply dict_get_Some_elem; reflexivity | reflexivity |].
    intros p' v' Hin Hl.
    change (ini_io.of_file Sample.fileB)
      with [("app/x", VStr "5"); ("app/y", VStr "2"); ("app/gone", VStr "7")] in Hin.
    repeat (apply elem_of_cons in Hin as [Hin|Hin];
            [inversion Hin; subst; first [reflexivity | vm_compute in Hl; discriminate Hl]|]).
    now apply elem_of_nil in Hin.
Defined.

Lemma protected_write_invariant_witness :
  BaseApp.get_lq "app/x" Sample.app0 = Return (Some 0) Sample.app0
  /\ protected (BaseApp.lqs Sample.app0 0) = true
  /\ BaseApp.write_setting_safe "app/x" (VInt 5) Sample.app0 = Return PROTECTED Sample.app0
  /\ exists a', BaseApp.write_setting "app/x" (VInt 5) Sample.app0 = Return SUCCESS a'
               /\ val (BaseApp.lqs a' 0) = VInt 5.
Proof.
  destruct (protected_write_invariant Sample.app0 "app/x" (VInt 5)) as [H _].
  destruct (H 0 eq_refl) as [Hsafe (a' & Hw & Hv & _)].
  split; [reflexivity|]. split; [reflexivity|]. split; [exact (Hsafe eq_refl)|].
  exists a'. split; assumption.
Defined.

Lemma write_settings_safe_report_witness :
  NoDup (dict_keys Sample.three_paths)
  /\ exists report a',
       BaseApp.write_settings_safe Sample.three_paths Sample.app0 = Return report a'
       /\ dict_keys report = ["app/gone"; "app/y"; "app/x"]
       /\ dict_get "app/x" report = Some PROTECTED.
Proof.
  assert (Hnd : NoDup (dict_keys Sample.three_paths)).
  { apply (bool_decide_unpack _). vm_compute. exact I. }
  split; [exact Hnd|].
  destruct (write_settings_safe_report Sample.app0 Sample.three_paths Hnd)
    as (report & a' & Hrun & Hkeys & Hcodes & _).
  exists report, a'. split; [assumption|]. split; [assumption|].
  apply (Hcodes "app/x"). apply (bool_decide_unpack _). vm_compute. exact I.
Defined.

Lemma registry_last_register_wins_witness :
  NoDup (dict_keys (BaseApp._setting_paths Sample.app0))
  /\ path (Sample.objects 0) = path (Sample.objects 2)
  /\ exists a1 a2,
       BaseApp.add_setting_path 0 Sample.app0 = Return tt a1
       /\ BaseApp.add_setting_path 2 a1 = Return tt a2
       /\ BaseApp.get_lq "app/x" a2 = Return (Some 2) a2.
Proof.
  assert (Hnd : NoDup (dict_keys (BaseApp._setting_paths Sample.app0))).
  { apply (bool_decide_unpack _). vm_compute. exact I. }
  split; [exact Hnd|]. split; [reflexivity|].
  destruct (registry_last_register_wins Sample.app0 0 2 3 Hnd eq_refl)
    as (a1 & a2 & a3 & H1 & H2 & _ & _ & _ & _ & _ & H8 & _).
  exists a1, a2. repeat split; assumption.
Defined.


(** * Further properties of the settings registry *)
Section registration.
Import BaseApp.

Lemma dict_pop_set_fresh {V} (k : string) (v : V) (d : dict V) :
  dict_get k d = None -> dict_pop k (dict_set k v d) = d.
Proof.
  induction d as [|[k' v'] d IH]; cbn.
  - now rewrite String.eqb_refl.
  - destruct (String.eqb k k') eqn:E; [discriminate|]. cbn. rewrite E.
    intros H. now rewrite IH.
Qed.

Lemma dict_ext {V} (d1 d2 : dict V) :
  dict_keys d1 = dict_keys d2 ->
  NoDup (dict_keys d1) ->
  (forall k, dict_get k d1 = dict_get k d2) ->
  d1 = d2.
Proof.
  revert d2. induction d1 as [|[k v] d1 IH]; intros [|[k2 v2] d2] Hkeys Hnd Hget;
    try discriminate; [reflexivity|].
  cbn in Hkeys. injection Hkeys as <- Hkeys.
  change (dict_keys ((k, v) :: d1)) with (k :: dict_keys d1) in Hnd.
  apply NoDup_cons in Hnd as [Hni Hnd].
  assert (Hv := Hget k). cbn in Hv. rewrite String.eqb_refl in Hv. injection Hv as <-.
  f_equal. apply IH; try assumption.
  intros k'. specialize (Hget k'). cbn in Hget.
  destruct (String.eqb k' k) eqn:E; [|assumption].
  apply String.eqb_eq in E. subst k'.
  rewrite (proj2 (dict_get_None_keys k d1) Hni).
  symmetry. apply dict_get_None_keys. unfold dict_keys. now rewrite <- Hkeys.
Qed.

(** X1: [remove_setting_path] unregisters by path, not by identity.  After
    a Setting was registered, unregistering any Setting that has the same
    path leaves that path without an entry, whatever was registered there
    before; the other paths resolve as they did before the registration;
    and when the path was free before, the registry is back to what it
    was. *)
Theorem unregister_by_path (a : app) (lq lq' : loc) :
  NoDup (dict_keys (_setting_paths a)) ->
  path (lqs a lq') = path (lqs a lq) ->
  exists a1 a2,
    add_setting_path lq a = Return tt a1
    /\ remove_setting_path lq' a1 = Return tt a2
    /\ get_lq (path (lqs a lq)) a2 = Return None a2
    /\ (forall q, q <> path (lqs a lq) ->
                  dict_get q (_setting_paths a2) = dict_get q (_setting_paths a))
    /\ (dict_get (path (lqs a lq)) (_setting_paths a) = None -> a2 = a).
Proof.
  intros Hnd Hpath. eexists _, _. split; [reflexivity|]. split; [reflexivity|].
  cbn. rewrite Hpath. repeat split.
  - unfold get_lq, gets. cbn. f_equal. f_equal.
    apply dict_get_pop_eq. now apply dict_set_NoDup.
  - intros q Hq. rewrite dict_get_pop_ne by congruence.
    apply dict_get_set_ne. congruence.
  - intros Hfree. rewrite dict_pop_set_fresh by assumption.
    unfold set_setting_paths. cbn. apply app_eta.
Qed.

(** The registry after a collection was registered. *)
Lemma register_all_eq (ls : list loc) : forall a,
  for_each ls add_setting_path a =
  Return tt (set_setting_paths
               (fold_left (fun d '(p, l) => dict_set p l d)
                          (map (fun l => (path (lqs a l), l)) ls)
                          (_setting_paths a)) a).
Proof.
  induction ls as [|l ls IH]; intros a; cbn.
  - now rewrite <- (app_eta a) at 1.
  - unfold bind. cbn. rewrite IH. reflexivity.
Qed.

Lemma assign_all_NoDup {V} (items : list (string * V)) : forall acc,
  NoDup (dict_keys acc) ->
  NoDup (dict_keys (fold_left (fun d '(p, v) => dict_set p v d) items acc)).
Proof.
  induction items as [|[p v] items IH]; intros acc Hacc; cbn; [assumption|].
  now apply IH, dict_set_NoDup.
Qed.

Lemma assign_all_keys_present {V} (items : list (string * V)) : forall acc,
  (forall p v, (p, v) ∈ items -> dict_contains p acc = true) ->
  dict_keys (fold_left (fun d '(p, v) => dict_set p v d) items acc) = dict_keys acc.
Proof.
  induction items as [|[p v] items IH]; intros acc H; simpl fold_left; [reflexivity|].
  assert (Hp : dict_contains p acc = true).
  { apply (H p v). apply elem_of_cons. now left. }
  rewrite IH.
  - rewrite dict_keys_set. now rewrite Hp.
  - intros p' v' Hin. unfold dict_contains. rewrite dict_get_set.
    destruct (String.eqb p p'); [reflexivity|].
    apply (H p' v'). apply elem_of_cons. now right.
Qed.

Lemma registered_last (a : app) (before after : list loc) (l : loc) (r0 : dict loc) :
  (forall l', l' ∈ after -> path (lqs a l') <> path (lqs a l)) ->
  dict_get (path (lqs a l))
    (fold_left (fun d '(p, l) => dict_set p l d)
       (map (fun l => (path (lqs a l), l)) (before ++ l :: after)) r0) = Some l.
Proof.
  intros Hlast. rewrite assign_all_lookup, map_app. cbn. rewrite rev_app_distr. cbn.
  rewrite !dict_get_app.
  assert (Hnone : dict_get (path (lqs a l))
                    (rev (map (fun l0 => (path (lqs a l0), l0)) after)) = None).
  { apply dict_get_None_keys. intros Hin.
    apply list_elem_of_In in Hin. unfold dict_keys in Hin.
    apply in_map_iff in Hin as ([p l'] & Hp & Hin). cbn in Hp. subst p.
    apply in_rev, in_map_iff in Hin as (l0 & [= Hp <-] & Hin).
    apply (Hlast l0); [now apply list_elem_of_In | assumption]. }
  rewrite Hnone. cbn. now rewrite String.eqb_refl.
Qed.

Lemma registered_other (a : app) (ls : list loc) (q : string) (r0 : dict loc) :
  (forall l, l ∈ ls -> path (lqs a l) <> q) ->
  dict_get q (fold_left (fun d '(p, l) => dict_set p l d)
                (map (fun l => (path (lqs a l), l)) ls) r0) = dict_get q r0.
Proof.
  intros Hq. rewrite assign_all_lookup.
  assert (Hnone : dict_get q (rev (map (fun l0 => (path (lqs a l0), l0)) ls)) = None).
  { apply dict_get_None_keys. intros Hin.
    apply list_elem_of_In in Hin. unfold dict_keys in Hin.
    apply in_map_iff in Hin as ([p l'] & Hp & Hin). cbn in Hp. subst p.
    apply in_rev, in_map_iff in Hin as (l0 & [= Hp <-] & Hin).
    apply (Hq l0); [now apply list_elem_of_In | assumption]. }
  now rewrite Hnone.
Qed.

(** X2: registering a collection returns, keeps the registry free of
    duplicate paths and leaves every Setting object as it was; afterwards
    each Setting of the collection that no later Setting of the collection
    shares its path with is resolved by its path, and a path that no
    Setting of the collection has resolves as before. *)
Theorem register_collection (a : app) (c : LQCollection) :
  NoDup (dict_keys (_setting_paths a)) ->
  exists a',
    add_lq_collection_to_settings_path c a = Return tt a'
    /\ lqs a' = lqs a
    /\ NoDup (dict_keys (_setting_paths a'))
    /\ (forall before l after,
          dict_values c = before ++ l :: after ->
          (forall l', l' ∈ after -> path (lqs a l') <> path (lqs a l)) ->
          get_lq (path (lqs a l)) a' = Return (Some l) a')
    /\ (forall q,
          (forall l, l ∈ dict_values c -> path (lqs a l) <> q) ->
          dict_get q (_setting_paths a') = dict_get q (_setting_paths a)).
Proof.
  intros Hnd. unfold add_lq_collection_to_settings_path. rewrite register_all_eq.
  eexists. split; [reflexivity|]. cbn. repeat split.
  - now apply assign_all_NoDup.
  - intros before l after Hc Hlast. unfold get_lq, gets. cbn. f_equal. f_equal.
    rewrite Hc. now apply registered_last.
  - intros q Hq. now apply registered_other.
Qed.

(** X3: registering the same collection a second time leaves the path
    registry and every Setting object as the first registration left them.
    (Each call also connects the two signals of the collection once more;
    the connections are not part of the state.) *)
Theorem register_collection_twice (a : app) (c : LQCollection) :
  NoDup (dict_keys (_setting_paths a)) ->
  exists a1 a2,
    add_lq_collection_to_settings_path c a = Return tt a1
    /\ add_lq_collection_to_settings_path c a1 = Return tt a2
    /\ _setting_paths a2 = _setting_paths a1
    /\ lqs a2 = lqs a1.
Proof.
  intros Hnd. unfold add_lq_collection_to_settings_path. rewrite register_all_eq.
  eexists _, _. split; [reflexivity|]. rewrite register_all_eq.
  split; [reflexivity|]. cbn. split; [|reflexivity].
  set (items := map (fun l => (path (lqs a l), l)) (dict_values c)).
  set (r1 := fold_left (fun d '(p, l) => dict_set p l d) items (_setting_paths a)).
  apply dict_ext.
  - apply assign_all_keys_present. intros p l Hin.
    unfold dict_contains, r1. rewrite assign_all_lookup.
    destruct (dict_get p (rev items)) eqn:E; [reflexivity|].
    exfalso. apply dict_get_None_keys in E. apply E.
    apply (elem_dict_keys _ l). apply list_elem_of_In. apply (proj1 (in_rev _ _)).
    now apply list_elem_of_In.
  - apply assign_all_NoDup. unfold r1. now apply assign_all_NoDup.
  - intros k. rewrite assign_all_lookup. unfold r1 at 2. rewrite assign_all_lookup.
    destruct (dict_get k (rev items)) eqn:E; [reflexivity|].
    unfold r1. now rewrite assign_all_lookup, E.
Qed.

End registration.

Lemma unregister_by_path_witness :
  NoDup (dict_keys (BaseApp._setting_paths Sample.app0))
  /\ path (Sample.objects 0) = path (Sample.objects 2)
  /\ exists a1 a2,
       BaseApp.add_setting_path 2 Sample.app0 = Return tt a1
       /\ BaseApp.remove_setting_path 0 a1 = Return tt a2
       /\ BaseApp.get_lq "app/x" a2 = Return None a2.
Proof.
  assert (Hnd : NoDup (dict_keys (BaseApp._setting_paths Sample.app0))).
  { apply (bool_decide_unpack _). vm_compute. exact I. }
  split; [exact Hnd|]. split; [reflexivity|].
  destruct (unregister_by_path Sample.app0 2 0 Hnd eq_refl)
    as (a1 & a2 & H1 & H2 & H3 & _).
  exists a1, a2. repeat split; assumption.
Defined.

Lemma register_collection_witness :
  NoDup (dict_keys (BaseApp._setting_paths Sample.app0))
  /\ exists a',
       BaseApp.add_lq_collection_to_settings_path [("x", 2); ("y", 1)] Sample.app0
       = Return tt a'
       /\ BaseApp.get_lq "app/x" a' = Return (Some 2) a'.
Proof.
  assert (Hnd : NoDup (dict_keys (BaseApp._setting_paths Sample.app0))).
  { apply (bool_decide_unpack _). vm_compute. exact I. }
  split; [exact Hnd|].
  destruct (register_collection Sample.app0 [("x", 2); ("y", 1)] Hnd)
    as (a' & Hrun & _ & _ & Hlast & _).
  exists a'. split; [exact Hrun|].
  apply (Hlast [] 2 [1] eq_refl). intros l' Hin.
  apply list_elem_of_singleton in Hin. subst l'. discriminate.
Defined.

Lemma register_collection_twice_witness :
  NoDup (dict_keys (BaseApp._setting_paths Sample.app0))
  /\ exists a1 a2,
       BaseApp.add_lq_collection_to_settings_path [("x", 2); ("y", 1)] Sample.app0
       = Return tt a1
       /\ BaseApp.add_lq_collection_to_settings_path [("x", 2); ("y", 1)] a1 = Return tt a2
       /\ BaseApp._setting_paths a2 = BaseApp._setting_paths a1.
Proof.
  assert (Hnd : NoDup (dict_keys (BaseApp._setting_paths Sample.app0))).
  { apply (bool_decide_unpack _). vm_compute. exact I. }
  split; [exact Hnd|].
  destruct (register_collection_twice Sample.app0 [("x", 2); ("y", 1)] Hnd)
    as (a1 & a2 & H1 & H2 & Hreg & _).
  exists a1, a2. split; [exact H1|]. split; [exact H2 | exact Hreg].
Defined.


(** * Further properties of reads and writes *)
Section last_entry.
Import BaseApp.
Variable guard : LoggedQuantity -> bool.
Variable method : value -> LoggedQuantity -> LoggedQuantity.
Hypothesis guard_stable : forall v q, guard (method v q) = guard q.
Hypothesis absorb : forall v v' q, method v (method v' q) = method v q.

Lemma fold_left_pointwise {A B} (f g : A -> B -> A) (l : list B) : forall x,
  (forall x y, f x y = g x y) -> fold_left f l x = fold_left g l x.
Proof.
  induction l as [|y l IH]; intros x H; cbn; [reflexivity|].
  rewrite H. now apply IH.
Qed.

Lemma reaches_entry_effect a e l e' :
  reaches guard (entry_effect guard method a e) l e' = reaches guard a l e'.
Proof.
  unfold reaches. rewrite entry_effect_paths, entry_effect_lookup.
  destruct (_ && guard (lqs a l)); [now rewrite guard_stable|reflexivity].
Qed.

Lemma run_fold items : forall a l,
  lqs (fold_left (entry_effect guard method) items a) l =
  fold_left (fun q e => if reaches guard a l e then method (snd e) q else q)
            items (lqs a l).
Proof.
  induction items as [|e items IH]; intros a l; cbn; [reflexivity|].
  rewrite IH, entry_effect_lookup. fold (reaches guard a l e).
  apply fold_left_pointwise. intros q e'. now rewrite reaches_entry_effect.
Qed.

Lemma fold_last (hit : string * value -> bool) (items : dict value) (q : LoggedQuantity) :
  fold_left (fun q e => if hit e then method (snd e) q else q) items q =
  match last_reach hit items with Some v => method v q | None => q end.
Proof.
  unfold last_reach. induction items as [|e items IH] using rev_ind; [reflexivity|].
  rewrite !fold_left_app. cbn. rewrite IH.
  destruct (hit e); [|reflexivity].
  now destruct (fold_left _ items None).
Qed.

(** Each object ends with the method applied for the last entry that
    reaches it. *)
Lemma run_last items a l :
  lqs (fold_left (entry_effect guard method) items a) l =
  match last_reach (reaches guard a l) items with
  | Some v => method v (lqs a l)
  | None => lqs a l
  end.
Proof. rewrite run_fold. apply fold_last. Qed.

Lemma last_reach_ext (h h' : string * value -> bool) items :
  (forall e, h e = h' e) -> last_reach h items = last_reach h' items.
Proof.
  intros H. unfold last_reach. apply fold_left_pointwise. intros x e. now rewrite H.
Qed.

Lemma reaches_run items a l e :
  reaches guard (fold_left (entry_effect guard method) items a) l e = reaches guard a l e.
Proof.
  unfold reaches. rewrite run_paths. f_equal.
  now apply (run_preserves guard method guard).
Qed.

Lemma run_twice items a l :
  lqs (fold_left (entry_effect guard method) items
         (fold_left (entry_effect guard method) items a)) l =
  lqs (fold_left (entry_effect guard method) items a) l.
Proof.
  rewrite run_last. rewrite (last_reach_ext _ (reaches guard a l)) by (intros; apply reaches_run).
  rewrite (run_last items a l).
  destruct (last_reach _ items); [apply absorb | reflexivity].
Qed.

End last_entry.

Lemma last_reach_all (hit : string * value -> bool) (items : dict value) (w : value) :
  (forall e, e ∈ items -> hit e = true -> snd e = w) ->
  (exists e, e ∈ items /\ hit e = true) ->
  last_reach hit items = Some w.
Proof.
  intros Hall Hex. unfold last_reach.
  assert (H : forall acc,
             fold_left (fun acc e => if hit e then Some (snd e) else acc) items acc
             = if existsb hit items then Some w else acc).
  { clear Hex. induction items as [|e items IH]; intros acc; cbn; [reflexivity|].
    rewrite IH.
    - destruct (hit e) eqn:E; cbn; [|reflexivity].
      rewrite (Hall e); [now destruct (existsb hit items)| apply elem_of_cons; now left | assumption].
    - intros e' Hin. apply Hall. apply elem_of_cons. now right. }
  rewrite H. destruct Hex as (e & Hin & He).
  assert (Hx : existsb hit items = true).
  { apply existsb_exists. exists e. split; [now apply list_elem_of_In | assumption]. }
  now rewrite Hx.
Qed.

Section reads_and_writes.
Import BaseApp.

Lemma dict_set_set {V} (k : string) (v v' : V) (d : dict V) :
  dict_set k v (dict_set k v' d) = dict_set k v d.
Proof.
  induction d as [|[k0 v0] d IH]; cbn.
  - now rewrite String.eqb_refl.
  - destruct (String.eqb k k0) eqn:E; cbn.
    + now rewrite String.eqb_refl.
    + now rewrite E, IH.
Qed.

Lemma write_stable v q : unprotected (write_method v q) = unprotected q.
Proof. reflexivity. Qed.

Lemma write_absorb v v' q : write_method v (write_method v' q) = write_method v q.
Proof. reflexivity. Qed.

Lemma propose_absorb name v v' q :
  propose_method name v (propose_method name v' q) = propose_method name v q.
Proof.
  unfold propose_method, propose_value. cbn. f_equal. apply dict_set_set.
Qed.

Lemma reaches_same guard (a a' : app) l e :
  _setting_paths a' = _setting_paths a ->
  guard (lqs a' l) = guard (lqs a l) ->
  reaches guard a' l e = reaches guard a l e.
Proof. intros H1 H2. unfold reaches. now rewrite H1, H2. Qed.

Lemma dict_comprehension_raises (flag : bool) (a : app) (ps : list string) :
  (exists p, p ∈ ps /\ dict_get p (_setting_paths a) = None) ->
  forall acc,
    dict_comprehension ps (fun p => read_setting p flag) acc a = Raise AttributeError a.
Proof.
  induction ps as [|p0 ps IH]; intros (p & Hin & Hp) acc.
  - now apply elem_of_nil in Hin.
  - cbn. unfold bind at 1. unfold read_setting at 1, get_lq, bind, gets.
    destruct (dict_get p0 (_setting_paths a)) as [l|] eqn:E; [|reflexivity].
    apply elem_of_cons in Hin as [->|Hin]; [congruence|].
    destruct flag; cbn; apply IH; eauto.
Qed.

(** X5: [read_settings] on a list of paths returns exactly when every path
    of the list is registered.  It then leaves the state as it is and maps
    each path of the list, and no other, to the value (or the string form)
    of its Setting; when some path of the list is not registered it raises
    AttributeError. *)
Theorem read_settings_returns_iff (a : app) (ps : list string) (flag : bool) :
  ((forall p, p ∈ ps -> dict_contains p (_setting_paths a) = true) ->
   exists d,
     read_settings (Some ps) flag a = Return d a
     /\ (forall p l, p ∈ ps -> dict_get p (_setting_paths a) = Some l ->
                     dict_get p d = Some (if flag then VStr (ini_string_value (lqs a l))
                                          else val (lqs a l)))
     /\ (forall p, p ∉ ps -> dict_get p d = None))
  /\ ((exists p, p ∈ ps /\ dict_contains p (_setting_paths a) = false) ->
      read_settings (Some ps) flag a = Raise AttributeError a).
Proof.
  split.
  - intros Hall. unfold read_settings, bind, ret. eexists. split.
    + apply dict_comprehension_registered. intros p Hp.
      now apply dict_contains_get, Hall.
    + split.
      * intros p l Hp Hl. rewrite comprehension_lookup.
        rewrite bool_decide_eq_true_2 by assumption. now rewrite Hl.
      * intros p Hp. rewrite comprehension_lookup.
        now rewrite bool_decide_eq_false_2 by assumption.
  - intros (p & Hin & Hp). unfold read_settings, bind, ret.
    apply dict_comprehension_raises. exists p. split; [assumption|].
    unfold dict_contains in Hp. now destruct (dict_get p (_setting_paths a)).
Qed.

(** X6: applying the same mapping a second time through
    [write_settings_safe] gives the same report and leaves every Setting
    and the registry as the first application left them. *)
Theorem write_settings_safe_twice (a : app) (settings : dict value) :
  exists report a1 a2,
    write_settings_safe settings a = Return report a1
    /\ write_settings_safe settings a1 = Return report a2
    /\ _setting_paths a2 = _setting_paths a1
    /\ forall l, lqs a2 l = lqs a1 l.
Proof.
  unfold write_settings_safe. rewrite write_settings_safe_loop_eq.
  eexists _, _, _. split; [reflexivity|]. rewrite write_settings_safe_loop_eq.
  split; [|split].
  - f_equal. apply fold_left_pointwise. intros r e.
    now rewrite result_code_stable.
  - apply run_paths.
  - intros l. apply run_twice; [apply write_stable | apply write_absorb].
Qed.

(** X7: loading the same file a second time returns the same mapping and
    changes no value, protection, path or choice list of any Setting, no
    registration and no file: apart from the proposals, which the second
    load files again, every Setting is as the first load left it. *)
Theorem settings_load_ini_twice (a : app) (fname : string) (f : ini_io.ini_file) :
  dict_get fname (fs a) = Some f ->
  exists a1 a2,
    settings_load_ini fname a = Return (ini_io.of_file f) a1
    /\ settings_load_ini fname a1 = Return (ini_io.of_file f) a2
    /\ _setting_paths a2 = _setting_paths a1
    /\ fs a2 = fs a1
    /\ forall l,
         val (lqs a2 l) = val (lqs a1 l)
         /\ protected (lqs a2 l) = protected (lqs a1 l)
         /\ path (lqs a2 l) = path (lqs a1 l)
         /\ choices (lqs a2 l) = choices (lqs a1 l).
Proof.
  intros Hf. rewrite (settings_load_ini_eq a fname f Hf).
  set (loaded := ini_io.of_file f).
  set (W := entry_effect unprotected write_method).
  set (P := entry_effect (fun _ => true) (propose_method (Path_name fname))).
  set (a1 := fold_left P loaded (fold_left W loaded a)).
  assert (Hf1 : dict_get fname (fs a1) = Some f).
  { unfold a1, P, W. now rewrite !run_fs. }
  exists a1. eexists. split; [reflexivity|].
  rewrite (settings_load_ini_eq a1 fname f Hf1). fold loaded W P.
  split; [reflexivity|]. split; [|split].
  - unfold P, W. now rewrite !run_paths.
  - unfold P, W. now rewrite !run_fs.
  - intros l.
    assert (HP : forall {B} (proj : LoggedQuantity -> B) s,
               (forall v q, proj (propose_method (Path_name fname) v q) = proj q) ->
               proj (lqs (fold_left P loaded s) l) = proj (lqs s l)).
    { intros B proj s H. now apply (run_preserves (fun _ => true)). }
    assert (HWp : forall {B} (proj : LoggedQuantity -> B) s,
               (forall v q, proj (write_method v q) = proj q) ->
               proj (lqs (fold_left W loaded s) l) = proj (lqs s l)).
    { intros B proj s H. now apply (run_preserves unprotected). }
    split; [|repeat split; rewrite HP, HWp by reflexivity; reflexivity].
    set (lw := last_reach (reaches unprotected a l) loaded).
    assert (HW : forall s,
               _setting_paths s = _setting_paths a ->
               unprotected (lqs s l) = unprotected (lqs a l) ->
               val (lqs (fold_left W loaded s) l) =
               match lw with Some v => v | None => val (lqs s l) end).
    { intros s Hreg Hprot. unfold W.
      rewrite (run_last unprotected write_method write_stable write_absorb).
      rewrite (last_reach_ext _ (reaches unprotected a l))
        by (intros e; now apply reaches_same).
      fold lw. now destruct lw. }
    assert (Hreg1 : _setting_paths a1 = _setting_paths a).
    { unfold a1, P, W. now rewrite !run_paths. }
    assert (Hprot1 : unprotected (lqs a1 l) = unprotected (lqs a l)).
    { unfold a1. now rewrite HP, HWp by reflexivity. }
    assert (E1 : val (lqs a1 l) = match lw with Some v => v | None => val (lqs a l) end).
    { unfold a1. rewrite (HP _ val) by reflexivity. now apply HW. }
    rewrite (HP _ val) by reflexivity. rewrite (HW a1 Hreg1 Hprot1), E1.
    now destruct lw.
Qed.

End reads_and_writes.

Section proposals.
Import BaseApp.

(** X8: [propose_settings_values] returns for every mapping and touches
    nothing but the proposals filed under its own label: the registry, the
    files, and the path, value, protection and choices of every Setting are
    as before, and so is what any Setting holds under another label. *)
Theorem propose_settings_values_frame (a : app) (name : string) (settings : dict value) :
  exists a',
    propose_settings_values name settings a = Return tt a'
    /\ _setting_paths a' = _setting_paths a
    /\ fs a' = fs a
    /\ forall l,
         path (lqs a' l) = path (lqs a l)
         /\ val (lqs a' l) = val (lqs a l)
         /\ protected (lqs a' l) = protected (lqs a l)
         /\ choices (lqs a' l) = choices (lqs a l)
         /\ forall other, other <> name ->
              dict_get other (proposed_values (lqs a' l))
              = dict_get other (proposed_values (lqs a l)).
Proof.
  rewrite propose_settings_values_eq. eexists. split; [reflexivity|].
  split; [apply run_paths|]. split; [apply run_fs|].
  intros l. repeat split.
  - now apply (run_preserves (fun _ => true) _ path).
  - now apply (run_preserves (fun _ => true) _ val).
  - now apply (run_preserves (fun _ => true) _ protected).
  - now apply (run_preserves (fun _ => true) _ choices).
  - intros other Hne.
    apply (run_preserves (fun _ => true) _
             (fun q => dict_get other (proposed_values q))).
    intros v q. cbn. now apply dict_get_set_ne.
Qed.

(** X9: when the destination can be opened, saving the settings writes
    to the file the mapping read with [read_settings(None, True)], changes
    no value, no protection and no registration, and files on every
    registered Setting, under the name of the file without its directories,
    the string form the Setting had when it was saved; when the destination
    cannot be opened the save raises and leaves the state as it was, no
    proposal filed. *)
Theorem settings_save_ini_records (a : app) (fname : string) :
  NoDup (dict_keys (_setting_paths a)) ->
  (writable a fname = true ->
   exists saved a1,
     read_settings None true a = Return saved a
     /\ settings_save_ini fname a = Return tt a1
     /\ dict_get fname (fs a1) = Some (ini_io.to_file saved)
     /\ _setting_paths a1 = _setting_paths a
     /\ (forall l, val (lqs a1 l) = val (lqs a l)
                   /\ protected (lqs a1 l) = protected (lqs a l))
     /\ forall p l,
          dict_get p (_setting_paths a) = Some l ->
          dict_get (Path_name fname) (proposed_values (lqs a1 l))
          = Some (VStr (ini_string_value (lqs a l))))
  /\ (writable a fname = false ->
      settings_save_ini fname a = Raise (OSError fname) a).
Proof.
  intros Hnd.
  set (g := fun p => match dict_get p (_setting_paths a) with
                     | Some l => VStr (ini_string_value (lqs a l))
                     | None => VStr ""
                     end).
  set (saved := fold_left (fun d p => dict_set p (g p) d) (dict_keys (_setting_paths a)) []).
  assert (Hread : read_settings None true a = Return saved a) by apply read_settings_all.
  split.
  2:{ intros Hw. unfold settings_save_ini, bind. rewrite Hread.
      unfold ini_io.save_settings. now rewrite Hw. }
  intros Hw.
  assert (Hkeys : dict_keys saved = dict_keys (_setting_paths a)).
  { unfold saved. rewrite comprehension_keys; [reflexivity|assumption|].
    intros k _. apply not_elem_of_nil. }
  assert (Hlook : forall p l, dict_get p (_setting_paths a) = Some l ->
                              dict_get p saved = Some (VStr (ini_string_value (lqs a l)))).
  { intros p l Hl. unfold saved. rewrite comprehension_lookup, bool_decide_eq_true_2.
    - unfold g. now rewrite Hl.
    - destruct (decide (p ∈ dict_keys (_setting_paths a))) as [H|H]; [assumption|].
      apply dict_get_None_keys in H. congruence. }
  exists saved. eexists. split; [exact Hread|]. split.
  { unfold settings_save_ini, bind. rewrite Hread. unfold ini_io.save_settings.
    rewrite Hw. now rewrite propose_settings_values_eq. }
  split; [|split; [|split]].
  - rewrite run_fs. cbn. apply dict_get_set_eq.
  - now rewrite run_paths.
  - intros l. split.
    + now rewrite (run_preserves (fun _ => true) _ val).
    + now rewrite (run_preserves (fun _ => true) _ protected).
  - intros p l Hl.
    rewrite (run_last (fun _ => true) (propose_method (Path_name fname))
               (fun _ _ => eq_refl) (propose_absorb _)).
    rewrite (last_reach_all _ _ (VStr (ini_string_value (lqs a l)))).
    + cbn. apply dict_get_set_eq.
    + intros [p' v'] Hin Hhit. cbn.
      unfold reaches in Hhit. cbn in Hhit. rewrite andb_true_r in Hhit.
      apply bool_decide_eq_true_1 in Hhit.
      apply (dict_get_elem_NoDup p' v') in Hin; [|now rewrite Hkeys].
      rewrite (Hlook p' l Hhit) in Hin. congruence.
    + exists (p, VStr (ini_string_value (lqs a l))). split.
      * apply dict_get_Some_elem. now apply Hlook.
      * unfold reaches. cbn. rewrite andb_true_r. now apply bool_decide_eq_true_2.
Qed.

End proposals.


(** * Further properties of the data browser *)
Section browser.
Import DataBrowser.

(** The state [add_view] leaves. *)
Lemma add_view_state (b : browser) (v : vloc) (vn : loc) :
  dict_get "view_name" (BaseApp.settings (base b)) = Some vn ->
  exists b',
    add_view v b = Return v b'
    /\ views b' = dict_set (name (view_objs b v)) v (views b)
    /\ view_objs b' = view_objs b
    /\ plugins b' = plugins b
    /\ BaseApp.settings (base b') = BaseApp.settings (base b)
    /\ BaseApp._setting_paths (base b') =
       fold_left (fun d '(p, l) => dict_set p l d)
         (map (fun l => (path (BaseApp.lqs (base b) l), l))
              (dict_values (view_settings (view_objs b v))))
         (BaseApp._setting_paths (base b))
    /\ BaseApp.lqs (base b') =
       <[vn := change_choice_list (BaseApp.lqs (base b) vn)
                 (dict_keys (dict_set (name (view_objs b v)) v (views b)))]>
         (BaseApp.lqs (base b)).
Proof.
  intros Hvn.
  unfold add_view, bind, gets, modify, inherited,
    BaseApp.add_lq_collection_to_settings_path. cbn.
  rewrite register_all_eq. cbn. unfold collection_get_lq. rewrite Hvn. cbn.
  eexists. split; [reflexivity|]. cbn. repeat split.
Qed.

Lemma split_view_path (sec owner n : string) :
  no_slash sec = true -> no_slash owner = true -> no_slash n = true ->
  split (sec ++ "/" ++ owner ++ "/" ++ n)%string = [sec; owner; n].
Proof.
  intros Hs Ho Hn.
  rewrite (string_append_assoc sec "/" (owner ++ "/" ++ n)).
  rewrite (string_append_assoc (sec ++ "/") owner ("/" ++ n)).
  rewrite split_append by assumption.
  rewrite <- (string_append_assoc sec "/" owner).
  rewrite split_append by assumption.
  now rewrite split_no_slash.
Qed.

(** What [get_lq] does on the path of a registered view. *)
Lemma get_lq_view_eq (b : browser) (p owner : string) (v : vloc) (rest : list string) :
  split p = "view" :: owner :: rest ->
  dict_get owner (views b) = Some v ->
  dict_contains "view_name" (BaseApp.settings (base b)) = true ->
  exists b',
    add_view v b = Return v b'
    /\ get_lq p b =
       Return (dict_get (List.last (split p) EmptyString)
                        (view_settings (view_objs b v))) b'.
Proof.
  intros Hsplit Hv Hvn.
  destruct (add_view_returns b v Hvn) as (b' & Hadd & Hobjs & _).
  exists b'. split; [assumption|].
  unfold get_lq, load_view, bind, gets. rewrite Hsplit. cbn -[add_view List.last].
  rewrite Hv, Hadd. cbn -[List.last]. rewrite Hobjs. apply member_lookup.
Qed.

(** X10: after [add_view], every Setting of the view is found by
    [get_lq] under "view/<name of the view>/<name of the Setting>", and that
    lookup leaves the registered views and the view objects as [add_view]
    left them. *)
Theorem add_view_then_get_lq (b : browser) (v : vloc) (n : string) (l : loc) :
  dict_contains "view_name" (BaseApp.settings (base b)) = true ->
  no_slash (name (view_objs b v)) = true ->
  no_slash n = true ->
  dict_get n (view_settings (view_objs b v)) = Some l ->
  exists b1 b2,
    add_view v b = Return v b1
    /\ get_lq ("view" ++ "/" ++ name (view_objs b v) ++ "/" ++ n)%string b1
       = Return (Some l) b2
    /\ views b2 = views b1
    /\ view_objs b2 = view_objs b.
Proof.
  intros Hvn Hnm Hn Hl.
  destruct (add_view_returns b v Hvn) as (b1 & Hadd & Hobjs & Hviews & _ & Hset & _).
  assert (Hvn1 : dict_contains "view_name" (BaseApp.settings (base b1)) = true)
    by now rewrite Hset.
  assert (Hv1 : dict_get (name (view_objs b v)) (views b1) = Some v).
  { rewrite Hviews. apply dict_get_set_eq. }
  assert (Hsplit := split_view_path "view" (name (view_objs b v)) n eq_refl Hnm Hn).
  destruct (get_lq_view_eq b1 _ _ v [n] Hsplit Hv1 Hvn1) as (b2 & Hadd2 & Hget).
  destruct (add_view_returns b1 v Hvn1) as (b2' & Hadd2' & Hobjs2 & Hviews2 & _).
  rewrite Hadd2 in Hadd2'. injection Hadd2' as <-.
  exists b1, b2. split; [assumption|]. split; [|split].
  - rewrite Hget, Hsplit, Hobjs. cbn. now rewrite Hl.
  - rewrite Hviews2, Hobjs, Hviews. apply dict_set_set.
  - now rewrite Hobjs2.
Qed.

(** X11: after [add_plugin], every Setting of the plugin is found by
    [get_lq] under "plugin/<name of the plugin>/<name of the Setting>", and
    that lookup changes nothing. *)
Theorem add_plugin_then_get_lq (b : browser) (pl : Plugin) (n : string) (l : loc) :
  no_slash (plugin_name pl) = true ->
  no_slash n = true ->
  dict_get n (plugin_settings pl) = Some l ->
  exists b1,
    add_plugin pl b = Return tt b1
    /\ get_lq ("plugin" ++ "/" ++ plugin_name pl ++ "/" ++ n)%string b1
       = Return (Some l) b1
    /\ views b1 = views b.
Proof.
  intros Hnm Hn Hl.
  unfold add_plugin, bind, modify, inherited,
    BaseApp.add_lq_collection_to_settings_path. cbn. rewrite register_all_eq. cbn.
  eexists. split; [reflexivity|]. split; [|reflexivity].
  unfold get_lq, bind, gets.
  rewrite (split_view_path "plugin" (plugin_name pl) n eq_refl Hnm Hn). cbn.
  rewrite dict_get_set_eq. cbn.
  unfold dict_contains. now rewrite Hl.
Qed.

End browser.

Section browser_state.
Import DataBrowser.

(** X12: [get_lq] of the data browser is not a pure lookup.  On a path
    "view/<owner>/..." of a registered view it registers the Settings of
    that view in the path registry again: afterwards each Setting of the
    view that no later Setting of the view shares its path with is resolved
    by its path in the registry, whatever the registry held there before;
    the registry stays free of duplicates, paths of no Setting of the view
    resolve as before, and no Setting changes its path, value or
    protection. *)
Theorem get_lq_registers_view (b : browser) (p owner : string) (rest : list string)
    (v : vloc) (vn : loc) :
  NoDup (dict_keys (BaseApp._setting_paths (base b))) ->
  split p = "view" :: owner :: rest ->
  dict_get owner (views b) = Some v ->
  dict_get "view_name" (BaseApp.settings (base b)) = Some vn ->
  exists r b',
    get_lq p b = Return r b'
    /\ NoDup (dict_keys (BaseApp._setting_paths (base b')))
    /\ (forall before l after,
          dict_values (view_settings (view_objs b v)) = before ++ l :: after ->
          (forall l', l' ∈ after ->
                      path (BaseApp.lqs (base b) l') <> path (BaseApp.lqs (base b) l)) ->
          BaseApp.get_lq (path (BaseApp.lqs (base b) l)) (base b')
          = Return (Some l) (base b'))
    /\ (forall q,
          (forall l, l ∈ dict_values (view_settings (view_objs b v)) ->
                     path (BaseApp.lqs (base b) l) <> q) ->
          dict_get q (BaseApp._setting_paths (base b'))
          = dict_get q (BaseApp._setting_paths (base b)))
    /\ (forall l,
          path (BaseApp.lqs (base b') l) = path (BaseApp.lqs (base b) l)
          /\ val (BaseApp.lqs (base b') l) = val (BaseApp.lqs (base b) l)
          /\ protected (BaseApp.lqs (base b') l) = protected (BaseApp.lqs (base b) l)).
Proof.
  intros Hnd Hsplit Hv Hvn.
  assert (Hin : dict_contains "view_name" (BaseApp.settings (base b)) = true).
  { apply dict_contains_get. eauto. }
  destruct (get_lq_view_eq b p owner v rest Hsplit Hv Hin) as (b' & Hadd & Hget).
  destruct (add_view_state b v vn Hvn) as (b'' & Hadd' & _ & _ & _ & _ & Hreg & Hlqs).
  rewrite Hadd in Hadd'. injection Hadd' as <-.
  eexists _, b'. split; [exact Hget|]. split; [|split; [|split]].
  - rewrite Hreg. now apply assign_all_NoDup.
  - intros before l after Hc Hlast. unfold BaseApp.get_lq, gets. f_equal. f_equal.
    rewrite Hreg, Hc. now apply registered_last.
  - intros q Hq. rewrite Hreg. now apply registered_other.
  - intros l. rewrite Hlqs. destruct (decide (l = vn)) as [->|Hne].
    + now rewrite fn_lookup_insert.
    + now rewrite fn_lookup_insert_ne by congruence.
Qed.

(** X13: [add_view] files the view under its name: a new name goes behind
    the names registered so far, a name that is registered keeps its place
    (so a view added again, or a second view that has the name of a first,
    does not move up in the order [auto_select_view] walks); the other names
    keep their views, and the choices of the [view_name] setting become the
    names of the registered views. *)
Theorem add_view_keeps_order (b : browser) (v : vloc) (vn : loc) :
  NoDup (dict_keys (views b)) ->
  dict_get "view_name" (BaseApp.settings (base b)) = Some vn ->
  exists b',
    add_view v b = Return v b'
    /\ dict_get (name (view_objs b v)) (views b') = Some v
    /\ dict_keys (views b') =
       (if dict_contains (name (view_objs b v)) (views b)
        then dict_keys (views b)
        else dict_keys (views b) ++ [name (view_objs b v)])
    /\ NoDup (dict_keys (views b'))
    /\ (forall n, n <> name (view_objs b v) ->
                  dict_get n (views b') = dict_get n (views b))
    /\ choices (BaseApp.lqs (base b') vn) = dict_keys (views b').
Proof.
  intros Hnd Hvn.
  destruct (add_view_state b v vn Hvn) as (b' & Hadd & Hviews & _ & _ & _ & _ & Hlqs).
  exists b'. split; [assumption|]. rewrite Hviews. repeat split.
  - apply dict_get_set_eq.
  - apply dict_keys_set.
  - now apply dict_set_NoDup.
  - intros n Hn. apply dict_get_set_ne. congruence.
  - rewrite Hlqs. now rewrite fn_lookup_insert.
Qed.

Lemma auto_select_loop_sound objs fname items :
  (exists v, (auto_select_loop objs fname items, v) ∈ items
             /\ is_file_supported (objs v) fname = true)
  \/ (auto_select_loop objs fname items = "file_info"
      /\ forall n w, (n, w) ∈ items -> is_file_supported (objs w) fname = false).
Proof.
  induction items as [|[n w] items IH]; cbn.
  - right. split; [reflexivity|]. intros n w H. now apply elem_of_nil in H.
  - destruct (is_file_supported (objs w) fname) eqn:E.
    + left. exists w. split; [apply elem_of_cons; now left | assumption].
    + destruct IH as [(v & Hin & Hv)|[Hr Hnone]].
      * left. exists v. split; [apply elem_of_cons; now right | assumption].
      * right. split; [assumption|]. intros n' w' Hin.
        apply elem_of_cons in Hin as [[= -> ->]|Hin]; [assumption|].
        now apply (Hnone n' w').
Qed.

(** X14: [auto_select_view] changes nothing and never names a view that
    does not support the file: either its answer is the key of a registered
    view that supports the file (so the lookup [self.views[view_name]] that
    follows it finds that view), or no registered view supports the file
    and the answer is "file_info". *)
Theorem auto_select_view_sound (b : browser) (fname : string) :
  NoDup (dict_keys (views b)) ->
  exists r,
    auto_select_view fname b = Return r b
    /\ ((exists v, dict_get r (views b) = Some v
                   /\ is_file_supported (view_objs b v) fname = true)
        \/ (r = "file_info"
            /\ forall n w, (n, w) ∈ views b ->
                           is_file_supported (view_objs b w) fname = false)).
Proof.
  intros Hnd. unfold auto_select_view, gets. eexists. split; [reflexivity|].
  destruct (auto_select_loop_sound (view_objs b) fname (rev (views b)))
    as [(v & Hin & Hv)|[Hr Hnone]].
  - left. exists v. split; [|assumption].
    apply dict_get_elem_NoDup; [assumption|].
    apply list_elem_of_In, in_rev. now apply list_elem_of_In.
  - right. split; [assumption|]. intros n w Hin. apply (Hnone n w).
    apply list_elem_of_In. apply (proj1 (in_rev _ _)). now apply list_elem_of_In.
Qed.

Lemma setup_view_frame (b : browser) (u : vloc) :
  loaded_indexed b ->
  exists b',
    setup_view u b = Return tt b'
    /\ loaded_indexed b'
    /\ current_view b' = u
    /\ dict_get (name (view_objs b u)) (view_stack_indices b') = Some (view_stack_current b')
    /\ base b' = base b /\ views b' = views b /\ plugins b' = plugins b
    /\ (forall w, name (view_objs b' w) = name (view_objs b w)).
Proof.
  intros Hinv. destruct (setup_view_step b u Hinv) as (b' & Hrun & Hinv' & _).
  exists b'. split; [assumption|]. split; [assumption|].
  destruct (view_loaded (view_objs b u)) eqn:Hl.
  - destruct (proj1 (dict_contains_get _ _) (Hinv u Hl)) as [i Hi].
    rewrite (setup_view_loaded b u i Hl Hi) in Hrun. injection Hrun as <-.
    cbn. repeat split. assumption.
  - revert Hrun. unfold setup_view, bind, gets, modify, on_view. rewrite Hl. cbn.
    rewrite !fn_lookup_insert. cbn. rewrite dict_get_set_eq. intros [= <-]. cbn.
    repeat split; [apply dict_get_set_eq|].
    intros w. destruct (decide (w = u)) as [->|Hne].
    + now rewrite fn_lookup_insert.
    + now rewrite !fn_lookup_insert_ne by congruence.
Qed.


End browser_state.

(** * Further properties of the operations *)
Section operations.
Import Operations.

Lemma registered_by_snoc (trace : list signal) (s : signal) (name : string) :
  registered_by (trace ++ [s]) name =
  match s with
  | operation_added n => if String.eqb n name then true else registered_by trace name
  | operation_removed n => if String.eqb n name then false else registered_by trace name
  end.
Proof. unfold registered_by. now rewrite fold_left_app. Qed.

Lemma do_call_coherent (c : call) (r : ops) :
  coherent r -> exists r', do_call c r = Return tt r' /\ coherent r'.
Proof.
  intros [Hnd Hco]. destruct c as [n f|n]; cbn.
  - eexists. split; [reflexivity|]. split; cbn [operations emitted].
    + now apply dict_set_NoDup.
    + intros name. rewrite registered_by_snoc. unfold dict_contains.
      rewrite dict_get_set. destruct (String.eqb n name); [reflexivity|]. apply Hco.
  - unfold remove_operation, bind, gets.
    destruct (dict_contains n (operations r)) eqn:E; cbn.
    + eexists. split; [reflexivity|]. split; cbn [operations emitted].
      * now apply dict_pop_NoDup.
      * intros name. rewrite registered_by_snoc. unfold dict_contains.
        destruct (String.eqb n name) eqn:En.
        -- apply String.eqb_eq in En. subst. now rewrite dict_get_pop_eq.
        -- apply String.eqb_neq in En. rewrite dict_get_pop_ne by assumption. apply Hco.
    + exists r. split; [reflexivity|]. now split.
Qed.

(** X16: the operations and the signals never disagree.  From a state in
    which a name is registered exactly when its last signal is
    [operation_added], any sequence of [add_operation] and
    [remove_operation] calls returns and leads to such a state again, with
    no name registered twice. *)
Theorem operations_stay_coherent (calls : list call) (r : ops) :
  coherent r ->
  exists r', for_each calls do_call r = Return tt r' /\ coherent r'.
Proof.
  revert r. induction calls as [|c calls IH]; intros r Hco.
  - exists r. now split.
  - destruct (do_call_coherent c r Hco) as (r1 & Hrun & Hco1).
    destruct (IH r1 Hco1) as (r' & Hrun' & Hco').
    exists r'. cbn. unfold bind. rewrite Hrun. now split.
Qed.

(** X17: removing a name that is not registered changes nothing and emits
    no signal; adding a new name and removing it again restores the
    operations and emits the two signals in that order; adding a name that
    is registered replaces its callable where the name stands and emits
    [operation_added] once more, without an [operation_removed]. *)
Theorem operation_add_remove (r : ops) (n : string) (f : nat) :
  (dict_contains n (operations r) = false ->
   remove_operation n r = Return tt r
   /\ exists r1 r2,
        add_operation n f r = Return tt r1
        /\ dict_get n (operations r1) = Some f
        /\ remove_operation n r1 = Return tt r2
        /\ operations r2 = operations r
        /\ emitted r2 = emitted r ++ [operation_added n; operation_removed n])
  /\ (dict_contains n (operations r) = true ->
      exists r1,
        add_operation n f r = Return tt r1
        /\ dict_keys (operations r1) = dict_keys (operations r)
        /\ dict_get n (operations r1) = Some f
        /\ emitted r1 = emitted r ++ [operation_added n]).
Proof.
  split.
  - intros Hfresh. split.
    + unfold remove_operation, bind, gets. now rewrite Hfresh.
    + eexists _, _. split; [reflexivity|]. cbn. split; [apply dict_get_set_eq|].
      unfold remove_operation, bind, gets. cbn. unfold dict_contains.
      rewrite dict_get_set_eq. cbn. split; [reflexivity|]. cbn. split.
      * apply dict_pop_set_fresh. unfold dict_contains in Hfresh.
        now destruct (dict_get n (operations r)).
      * now rewrite <- app_assoc.
  - intros Hreg. eexists. split; [reflexivity|]. cbn [operations emitted].
    split; [|split; [apply dict_get_set_eq | reflexivity]].
    rewrite dict_keys_set. now rewrite Hreg.
Qed.

End operations.

(** * Instances *)

Lemma read_settings_returns_iff_witness :
  (exists d, BaseApp.read_settings (Some ["app/y"; "app/x"]) false Sample.app0
             = Return d Sample.app0
             /\ dict_get "app/x" d = Some (VInt 10))
  /\ BaseApp.read_settings (Some ["app/y"; "app/gone"]) false Sample.app0
     = Raise AttributeError Sample.app0.
Proof.
  split.
  - destruct (proj1 (read_settings_returns_iff Sample.app0 ["app/y"; "app/x"] false))
      as (d & Hrun & Hval & _).
    + intros p Hp. apply elem_of_cons in Hp as [->|Hp]; [reflexivity|].
      apply list_elem_of_singleton in Hp. now subst.
    + exists d. split; [exact Hrun|].
      apply (Hval "app/x" 0); [|reflexivity].
      apply elem_of_cons. right. apply elem_of_cons. now left.
  - apply (proj2 (read_settings_returns_iff Sample.app0 ["app/y"; "app/gone"] false)).
    exists "app/gone". split; [|reflexivity].
    apply elem_of_cons. right. apply elem_of_cons. now left.
Defined.

Lemma settings_load_ini_twice_witness :
  dict_get "conf/fileB.ini" (BaseApp.fs Sample.app2) = Some Sample.fileB
  /\ exists a1 a2,
       BaseApp.settings_load_ini "conf/fileB.ini" Sample.app2
       = Return (ini_io.of_file Sample.fileB) a1
       /\ BaseApp.settings_load_ini "conf/fileB.ini" a1
          = Return (ini_io.of_file Sample.fileB) a2
       /\ val (BaseApp.lqs a2 1) = val (BaseApp.lqs a1 1).
Proof.
  split; [reflexivity|].
  destruct (settings_load_ini_twice Sample.app2 "conf/fileB.ini" Sample.fileB eq_refl)
    as (a1 & a2 & H1 & H2 & _ & _ & Hsame).
  exists a1, a2. split; [exact H1|]. split; [exact H2|]. exact (proj1 (Hsame 1)).
Defined.

Lemma settings_save_ini_records_witness :
  NoDup (dict_keys (BaseApp._setting_paths Sample.app0))
  /\ BaseApp.writable Sample.app0 "conf/saved.ini" = true
  /\ BaseApp.writable Sample.app0 "nodir/saved.ini" = false
  /\ (exists a1,
        BaseApp.settings_save_ini "conf/saved.ini" Sample.app0 = Return tt a1
        /\ dict_get "saved.ini" (proposed_values (BaseApp.lqs a1 0)) = Some (VStr "10"))
  /\ BaseApp.settings_save_ini "nodir/saved.ini" Sample.app0
     = Raise (OSError "nodir/saved.ini") Sample.app0.
Proof.
  assert (Hnd : NoDup (dict_keys (BaseApp._setting_paths Sample.app0))).
  { apply (bool_decide_unpack _). vm_compute. exact I. }
  split; [exact Hnd|]. split; [reflexivity|]. split; [reflexivity|]. split.
  - destruct (proj1 (settings_save_ini_records Sample.app0 "conf/saved.ini" Hnd) eq_refl)
      as (saved & a1 & _ & Hsave & _ & _ & _ & Hprop).
    exists a1. split; [exact Hsave|]. exact (Hprop "app/x" 0 eq_refl).
  - exact (proj2 (settings_save_ini_records Sample.app0 "nodir/saved.ini" Hnd) eq_refl).
Defined.

Lemma add_view_then_get_lq_witness :
  dict_contains "view_name" (BaseApp.settings (DataBrowser.base Sample.browser_init)) = true
  /\ dict_get "x" (DataBrowser.view_settings
                     (DataBrowser.view_objs Sample.browser_init 1)) = Some 2
  /\ exists b1 b2,
       DataBrowser.add_view 1 Sample.browser_init = Return 1 b1
       /\ DataBrowser.get_lq "view/A/x" b1 = Return (Some 2) b2.
Proof.
  split; [reflexivity|]. split; [reflexivity|].
  destruct (add_view_then_get_lq Sample.browser_init 1 "x" 2
              eq_refl eq_refl eq_refl eq_refl) as (b1 & b2 & Hadd & Hget & _).
  exists b1, b2. split; [exact Hadd | exact Hget].
Defined.

Lemma add_plugin_then_get_lq_witness :
  dict_get "gain" [("gain", 3)] = Some 3
  /\ exists b1,
       DataBrowser.add_plugin (DataBrowser.mkPlugin "P" [("gain", 3)]) Sample.browser_init
       = Return tt b1
       /\ DataBrowser.get_lq "plugin/P/gain" b1 = Return (Some 3) b1.
Proof.
  split; [reflexivity|].
  destruct (add_plugin_then_get_lq Sample.browser_init
              (DataBrowser.mkPlugin "P" [("gain", 3)]) "gain" 3
              eq_refl eq_refl eq_refl) as (b1 & Hadd & Hget & _).
  exists b1. split; [exact Hadd | exact Hget].
Defined.

Lemma get_lq_registers_view_witness :
  NoDup (dict_keys (BaseApp._setting_paths (DataBrowser.base Sample.browser_init)))
  /\ BaseApp.get_lq "view/A/x" (DataBrowser.base Sample.browser_init)
     = Return None (DataBrowser.base Sample.browser_init)
  /\ exists r b',
       DataBrowser.get_lq "view/A/x"
         (DataBrowser.set_views [("file_info", 0); ("A", 1)] Sample.browser_init)
       = Return r b'
       /\ BaseApp.get_lq "view/A/x" (DataBrowser.base b')
          = Return (Some 2) (DataBrowser.base b').
Proof.
  assert (Hnd : NoDup (dict_keys (BaseApp._setting_paths
                                    (DataBrowser.base Sample.browser_init)))).
  { apply (bool_decide_unpack _). vm_compute. exact I. }
  split; [exact Hnd|]. split; [reflexivity|].
  destruct (get_lq_registers_view
              (DataBrowser.set_views [("file_info", 0); ("A", 1)] Sample.browser_init)
              "view/A/x" "A" ["x"] 1 1 Hnd eq_refl eq_refl eq_refl)
    as (r & b' & Hget & _ & Hlast & _).
  exists r, b'. split; [exact Hget|].
  apply (Hlast [] 2 [] eq_refl). intros l' Hin. now apply elem_of_nil in Hin.
Defined.

Lemma add_view_keeps_order_witness :
  NoDup (dict_keys (DataBrowser.views Sample.browser0))
  /\ exists b',
       DataBrowser.add_view 1 Sample.browser0 = Return 1 b'
       /\ dict_keys (DataBrowser.views b') = ["file_info"; "A"; "B"; "C"].
Proof.
  assert (Hnd : NoDup (dict_keys (DataBrowser.views Sample.browser0))).
  { apply (bool_decide_unpack _). vm_compute. exact I. }
  split; [exact Hnd|].
  destruct (add_view_keeps_order Sample.browser0 1 1 Hnd eq_refl)
    as (b' & Hadd & _ & Hkeys & _).
  exists b'. split; [exact Hadd | exact Hkeys].
Defined.

Lemma auto_select_view_sound_witness :
  NoDup (dict_keys (DataBrowser.views Sample.browser0))
  /\ exists r,
       DataBrowser.auto_select_view "x.dat" Sample.browser0 = Return r Sample.browser0.
Proof.
  assert (Hnd : NoDup (dict_keys (DataBrowser.views Sample.browser0))).
  { apply (bool_decide_unpack _). vm_compute. exact I. }
  split; [exact Hnd|].
  destruct (auto_select_view_sound Sample.browser0 "x.dat" Hnd) as (r & Hrun & _).
  exists r. exact Hrun.
Defined.


Lemma operations_stay_coherent_witness :
  Operations.coherent (Operations.mkOps [] [])
  /\ exists r',
       for_each [Operations.Add "run" 1; Operations.Add "stop" 2; Operations.Remove "run"]
                Operations.do_call (Operations.mkOps [] []) = Return tt r'
       /\ Operations.coherent r'.
Proof.
  assert (Hco : Operations.coherent (Operations.mkOps [] [])).
  { split; [constructor | reflexivity]. }
  split; [exact Hco|].
  exact (operations_stay_coherent
           [Operations.Add "run" 1; Operations.Add "stop" 2; Operations.Remove "run"]
           (Operations.mkOps [] []) Hco).
Defined.

Lemma operation_add_remove_witness :
  dict_contains "run" (Operations.operations (Operations.mkOps [("stop", 2)] [])) = false
  /\ exists r1 r2,
       Operations.add_operation "run" 1 (Operations.mkOps [("stop", 2)] []) = Return tt r1
       /\ Operations.remove_operation "run" r1 = Return tt r2
       /\ Operations.operations r2 = [("stop", 2)].
Proof.
  split; [reflexivity|].
  destruct (proj1 (operation_add_remove (Operations.mkOps [("stop", 2)] []) "run" 1) eq_refl)
    as (_ & r1 & r2 & Hadd & _ & Hrem & Hops & _).
  exists r1, r2. split; [exact Hadd|]. split; [exact Hrem | exact Hops].
Defined.
